(** * The room lobby of play-port: GameLobby.tsx over the rooms and players tables

    The lobby controller of [GameLobby] (the Supabase-backed component) is
    embedded together with the two tables of the migration it talks to.

    - Strings are sequences of ASCII characters, the alphabet on which the
      [String.prototype] methods used by the component ([trim],
      [toUpperCase], [substring]) are the functions written below.
    - The store is the pair of tables, each a list of rows in insertion
      order.  A store call is a function of the store that returns the
      [{ data, error }] response and the store after the call; what the
      backend decides for the call (whether it is carried out, the fresh
      uuid, the clock) is its [Call] argument.  A call resolves also when it
      fails: the failure is the [error] of the response.
    - A handler is a computation over the store, the state cells of the
      component and the list of what it shows (toasts, console errors,
      navigation); it can end normally, by [return] or by [throw], which is
      what [try]/[catch]/[finally] act on.  A handler runs to completion
      against the store; what the other clients write shows between handlers,
      as the [Elsewhere] event of the transition system. *)

From Stdlib Require Import String Ascii List ZArith Bool Arith Lia.
From Stdlib Require Import Sorted Permutation.
From Stdlib Require DecimalString.
Import ListNotations.

Local Open Scope string_scope.
Local Open Scope list_scope.
Local Open Scope nat_scope.

(** ** JavaScript strings *)

Module JS.

(** The WhiteSpace and LineTerminator code points below U+0080:
    TAB, LF, VT, FF, CR and SPACE. *)
Definition isWhiteSpace (c : ascii) : bool :=
  let n := nat_of_ascii c in
  ((9 <=? n) && (n <=? 13)) || (n =? 32).

Fixpoint trimStart (s : string) : string :=
  match s with
  | EmptyString => EmptyString
  | String c s' => if isWhiteSpace c then trimStart s' else s
  end.

Fixpoint trimEnd (s : string) : string :=
  match s with
  | EmptyString => EmptyString
  | String c s' =>
      match trimEnd s' with
      | EmptyString => if isWhiteSpace c then EmptyString else String c EmptyString
      | t => String c t
      end
  end.

(** [s.trim()] *)
Definition trim (s : string) : string := trimEnd (trimStart s).

(** ToBoolean on a string: only the empty string is falsy. *)
Definition truthy (s : string) : bool :=
  match s with
  | EmptyString => false
  | String _ _ => true
  end.

Definition upperChar (c : ascii) : ascii :=
  let n := nat_of_ascii c in
  if (97 <=? n) && (n <=? 122) then ascii_of_nat (n - 32) else c.

(** [s.toUpperCase()] *)
Fixpoint toUpperCase (s : string) : string :=
  match s with
  | EmptyString => EmptyString
  | String c s' => String (upperChar c) (toUpperCase s')
  end.

(** [s.substring(start, end)]: both indices are clamped to the length and
    swapped when [start] exceeds [end]. *)
Definition substring (start end_ : nat) (s : string) : string :=
  let len := String.length s in
  let a := Nat.min start len in
  let b := Nat.min end_ len in
  let from := Nat.min a b in
  let to := Nat.max a b in
  String.substring from (to - from) s.

(** A digit of [Number.prototype.toString(radix)] for radix up to 36:
    [0]..[9] then [a]..[z]. *)
Definition digitChar (d : nat) : ascii :=
  if d <? 10 then ascii_of_nat (48 + d) else ascii_of_nat (87 + d).

(** [x.toString(36)] for a Number [0 <= x < 1].  Radix 36 never prints an
    exponent: the result is [0] for zero and otherwise [0.] followed by the
    fraction digits of [x] in radix 36.  How many digits are printed is
    left to the engine, so [x] is given by the digits [frac] it prints
    (none for zero). *)
Definition toString36 (frac : list nat) : string :=
  match frac with
  | [] => "0"
  | _ => String.append "0." (string_of_list_ascii (map digitChar frac))
  end.

Fixpoint forallb_string (p : ascii -> bool) (s : string) : bool :=
  match s with
  | EmptyString => true
  | String c s' => p c && forallb_string p s'
  end.

(** [0]..[9] or [A]..[Z] *)
Definition isUpperBase36 (c : ascii) : bool :=
  let n := nat_of_ascii c in
  ((48 <=? n) && (n <=? 57)) || ((65 <=? n) && (n <=? 90)).

End JS.

(** ** The room code *)

(** [generateRoomCode]: [Math.random().toString(36).substring(2, 8).toUpperCase()];
    [frac] stands for the draw of [Math.random()], see [JS.toString36]. *)
Definition generateRoomCode (frac : list nat) : string :=
  JS.toUpperCase (JS.substring 2 8 (JS.toString36 frac)).

(** ** The two tables of the migration *)

(** A row of [public.rooms]. *)
Module Room.
Record t : Type := mk {
  id : string;
  code : string;
  host_name : string;
  max_players : Z;
  created_at : Z;
  updated_at : Z
}.
End Room.

(** A row of [public.players]. *)
Module Player.
Record t : Type := mk {
  id : string;
  room_id : string;
  name : string;
  is_host : bool;
  joined_at : Z
}.
End Player.

Record Store : Type := {
  public_rooms : list Room.t;
  public_players : list Player.t
}.

(** What the backend contributes to one request: whether the request is
    carried out at all, and the values of [gen_random_uuid()] and [now()]
    should a row be inserted. *)
Record Call : Type := {
  transport_ok : bool;
  gen_random_uuid : string;
  now : Z
}.

Inductive PostgrestError : Type :=
| FetchFailed
| UniqueViolation (constraint : string)
| ForeignKeyViolation (constraint : string)
| NotASingleRow.

(** The [{ data, error }] pair a query resolves to: exactly one of the two
    is set. *)
Inductive Response (A : Type) : Type :=
| Data (data : A)
| Error (error : PostgrestError).
Arguments Data {A} data.
Arguments Error {A} error.

Definition has_room_id (rid : string) (r : Room.t) : bool := String.eqb (Room.id r) rid.
Definition has_code (c : string) (r : Room.t) : bool := String.eqb (Room.code r) c.
Definition has_player_id (pid : string) (p : Player.t) : bool := String.eqb (Player.id p) pid.
Definition in_room (rid : string) (p : Player.t) : bool := String.eqb (Player.room_id p) rid.

(** [max_players INTEGER NOT NULL DEFAULT 4] *)
Definition default_max_players : Z := 4%Z.

(** [is_host BOOLEAN NOT NULL DEFAULT false] *)
Definition default_is_host : bool := false.

Definition or_default {A : Type} (d : A) (o : option A) : A :=
  match o with
  | Some a => a
  | None => d
  end.

(** [from('rooms').insert({ code, host_name, max_players }).select().single()]:
    [id] is the primary key and [code] is UNIQUE; a column left out of the
    insert takes its DEFAULT. *)
Definition insert_room (c : Call) (code host_name : string) (max_players : option Z)
    (db : Store) : Response Room.t * Store :=
  if negb (transport_ok c) then (Error FetchFailed, db)
  else if existsb (has_room_id (gen_random_uuid c)) (public_rooms db)
  then (Error (UniqueViolation "rooms_pkey"), db)
  else if existsb (has_code code) (public_rooms db)
  then (Error (UniqueViolation "rooms_code_key"), db)
  else
    let row := Room.mk (gen_random_uuid c) code host_name
                 (or_default default_max_players max_players) (now c) (now c) in
    (Data row, {| public_rooms := public_rooms db ++ [row];
                  public_players := public_players db |}).

(** [from('players').insert({ room_id, name, is_host }).select().single()]:
    [room_id] REFERENCES [public.rooms(id)]. *)
Definition insert_player (c : Call) (room_id name : string) (is_host : option bool)
    (db : Store) : Response Player.t * Store :=
  if negb (transport_ok c) then (Error FetchFailed, db)
  else if existsb (has_player_id (gen_random_uuid c)) (public_players db)
  then (Error (UniqueViolation "players_pkey"), db)
  else if negb (existsb (has_room_id room_id) (public_rooms db))
  then (Error (ForeignKeyViolation "players_room_id_fkey"), db)
  else
    let row := Player.mk (gen_random_uuid c) room_id name
                 (or_default default_is_host is_host) (now c) in
    (Data row, {| public_rooms := public_rooms db;
                  public_players := public_players db ++ [row] |}).

(** [from('rooms').select('*').eq('code', code).single()]: an error unless
    exactly one row matches. *)
Definition select_room_by_code (c : Call) (code : string) (db : Store)
    : Response Room.t * Store :=
  if negb (transport_ok c) then (Error FetchFailed, db)
  else
    match filter (has_code code) (public_rooms db) with
    | [r] => (Data r, db)
    | _ => (Error NotASingleRow, db)
    end.

(** [from('players').select('*').eq('room_id', rid)] *)
Definition select_players (c : Call) (rid : string) (db : Store)
    : Response (list Player.t) * Store :=
  if negb (transport_ok c) then (Error FetchFailed, db)
  else (Data (filter (in_room rid) (public_players db)), db).

(** [ORDER BY joined_at ASC], as a stable insertion sort. *)
Fixpoint insert_by_joined_at (p : Player.t) (l : list Player.t) : list Player.t :=
  match l with
  | [] => [p]
  | q :: l' =>
      if (Player.joined_at p <=? Player.joined_at q)%Z
      then p :: l
      else q :: insert_by_joined_at p l'
  end.

Definition order_by_joined_at (l : list Player.t) : list Player.t :=
  fold_right insert_by_joined_at [] l.

(** [from('players').select('*').eq('room_id', rid).order('joined_at', { ascending: true })] *)
Definition select_players_ordered (c : Call) (rid : string) (db : Store)
    : Response (list Player.t) * Store :=
  if negb (transport_ok c) then (Error FetchFailed, db)
  else (Data (order_by_joined_at (filter (in_room rid) (public_players db))), db).

(** [from('players').delete().eq('id', pid)] *)
Definition delete_player (c : Call) (pid : string) (db : Store)
    : Response unit * Store :=
  if negb (transport_ok c) then (Error FetchFailed, db)
  else
    (Data tt,
     {| public_rooms := public_rooms db;
        public_players := filter (fun p => negb (has_player_id pid p)) (public_players db) |}).

(** [from('rooms').delete().eq('id', rid)]: the rows of [public.players] that
    reference a deleted room go with it ([ON DELETE CASCADE]). *)
Definition delete_room (c : Call) (rid : string) (db : Store)
    : Response unit * Store :=
  if negb (transport_ok c) then (Error FetchFailed, db)
  else if existsb (has_room_id rid) (public_rooms db)
  then
    (Data tt,
     {| public_rooms := filter (fun r => negb (has_room_id rid r)) (public_rooms db);
        public_players := filter (fun p => negb (in_room rid p)) (public_players db) |})
  else (Data tt, db).

(** ** The component state and its effects *)

Inductive View : Type := landing | room.

(** The [useState] cells of [GameLobby]. *)
Record Lobby : Type := {
  currentView : View;
  playerName : string;
  roomCode : string;
  currentRoom : option Room.t;
  currentPlayer : option Player.t;
  players : list Player.t;
  loading : bool
}.

Definition initialLobby : Lobby :=
  {| currentView := landing; playerName := ""; roomCode := "";
     currentRoom := None; currentPlayer := None; players := []; loading := false |}.

Inductive ToastVariant : Type := default | destructive.

(** What a handler shows or triggers besides store calls and state updates. *)
Inductive Output : Type :=
| Toast (title description : string) (variant : ToastVariant)
| ConsoleError (message : string) (error : PostgrestError)
| Navigate (path : string).

Record World : Type := {
  store : Store;
  ui : Lobby;
  out : list Output
}.

(** How a block of statements ends: normally, by [return], or by [throw]. *)
Inductive Completion (A : Type) : Type :=
| Normal (a : A)
| Returned
| Thrown (e : PostgrestError).
Arguments Normal {A} a.
Arguments Returned {A}.
Arguments Thrown {A} e.

Definition Act (A : Type) : Type := World -> Completion A * World.

Definition pure {A : Type} (a : A) : Act A := fun w => (Normal a, w).

Definition bind {A B : Type} (m : Act A) (k : A -> Act B) : Act B :=
  fun w =>
    match m w with
    | (Normal a, w') => k a w'
    | (Returned, w') => (Returned, w')
    | (Thrown e, w') => (Thrown e, w')
    end.

Declare Scope act_scope.
Delimit Scope act_scope with act.
Notation "x <- m ;; k" := (bind m (fun x => k))
  (at level 61, m at next level, right associativity) : act_scope.
Notation "m ;; k" := (bind m (fun _ => k))
  (at level 61, right associativity) : act_scope.
Local Open Scope act_scope.

Definition return_ {A : Type} : Act A := fun w => (Returned, w).
Definition throw {A : Type} (e : PostgrestError) : Act A := fun w => (Thrown e, w).

(** [try { body } catch (error) { handler } finally { fin }] *)
Definition try_catch_finally (body : Act unit) (handler : PostgrestError -> Act unit)
    (fin : Act unit) : Act unit :=
  fun w =>
    let (c, w1) := body w in
    let (c', w2) := match c with
                    | Thrown e => handler e w1
                    | _ => (c, w1)
                    end in
    match fin w2 with
    | (Normal _, w3) => (c', w3)
    | abrupt => abrupt
    end.

(** [try { body } catch (error) { handler }] *)
Definition try_catch (body : Act unit) (handler : PostgrestError -> Act unit) : Act unit :=
  try_catch_finally body handler (pure tt).

(** [await] of a store call: the promise resolves to the response, also when
    the response carries an error. *)
Definition await {A : Type} (call : Store -> Response A * Store) : Act (Response A) :=
  fun w =>
    let (r, db) := call (store w) in
    (Normal r, {| store := db; ui := ui w; out := out w |}).

Definition emit (o : Output) : Act unit :=
  fun w => (Normal tt, {| store := store w; ui := ui w; out := out w ++ [o] |}).

Definition toast (title description : string) (variant : ToastVariant) : Act unit :=
  emit (Toast title description variant).
Definition console_error (message : string) (error : PostgrestError) : Act unit :=
  emit (ConsoleError message error).
Definition navigate (path : string) : Act unit := emit (Navigate path).

Definition update (f : Lobby -> Lobby) : Act unit :=
  fun w => (Normal tt, {| store := store w; ui := f (ui w); out := out w |}).

Definition with_currentView (v : View) (st : Lobby) : Lobby :=
  {| currentView := v; playerName := playerName st; roomCode := roomCode st;
     currentRoom := currentRoom st; currentPlayer := currentPlayer st;
     players := players st; loading := loading st |}.
Definition with_playerName (v : string) (st : Lobby) : Lobby :=
  {| currentView := currentView st; playerName := v; roomCode := roomCode st;
     currentRoom := currentRoom st; currentPlayer := currentPlayer st;
     players := players st; loading := loading st |}.
Definition with_roomCode (v : string) (st : Lobby) : Lobby :=
  {| currentView := currentView st; playerName := playerName st; roomCode := v;
     currentRoom := currentRoom st; currentPlayer := currentPlayer st;
     players := players st; loading := loading st |}.
Definition with_currentRoom (v : option Room.t) (st : Lobby) : Lobby :=
  {| currentView := currentView st; playerName := playerName st; roomCode := roomCode st;
     currentRoom := v; currentPlayer := currentPlayer st;
     players := players st; loading := loading st |}.
Definition with_currentPlayer (v : option Player.t) (st : Lobby) : Lobby :=
  {| currentView := currentView st; playerName := playerName st; roomCode := roomCode st;
     currentRoom := currentRoom st; currentPlayer := v;
     players := players st; loading := loading st |}.
Definition with_players (v : list Player.t) (st : Lobby) : Lobby :=
  {| currentView := currentView st; playerName := playerName st; roomCode := roomCode st;
     currentRoom := currentRoom st; currentPlayer := currentPlayer st;
     players := v; loading := loading st |}.
Definition with_loading (v : bool) (st : Lobby) : Lobby :=
  {| currentView := currentView st; playerName := playerName st; roomCode := roomCode st;
     currentRoom := currentRoom st; currentPlayer := currentPlayer st;
     players := players st; loading := v |}.

Definition setCurrentView (v : View) : Act unit := update (with_currentView v).
Definition setPlayerName (v : string) : Act unit := update (with_playerName v).
Definition setRoomCode (v : string) : Act unit := update (with_roomCode v).
Definition setCurrentRoom (v : option Room.t) : Act unit := update (with_currentRoom v).
Definition setCurrentPlayer (v : option Player.t) : Act unit := update (with_currentPlayer v).
Definition setPlayers (v : list Player.t) : Act unit := update (with_players v).
Definition setLoading (v : bool) : Act unit := update (with_loading v).

(** The state cells as the handler's closure sees them: the values of the
    render in which the handler was created. *)
Definition closure : Act Lobby := fun w => (Normal (ui w), w).

(** An [async] handler run to completion: the world it leaves behind. *)
Definition run (handler : Act unit) (w : World) : World := snd (handler w).

(** [currentPlayer?.is_host] as a condition *)
Definition is_host_opt (p : option Player.t) : bool :=
  match p with
  | Some p => Player.is_host p
  | None => false
  end.

Definition is_null {A : Type} (o : option A) : bool :=
  match o with
  | Some _ => false
  | None => true
  end.

(** ** The handlers of [GameLobby] *)

(** [fetchPlayers] *)
Definition fetchPlayers (c : Call) : Act unit :=
  st <- closure ;;
  match currentRoom st with
  | None => return_
  | Some currentRoom =>
      res <- await (select_players_ordered c (Room.id currentRoom)) ;;
      match res with
      | Error error => console_error "Error fetching players:" error
      | Data data => setPlayers data
      end
  end.

(** [hostRoom]; [random] is the draw of [Math.random()], [c_room] and
    [c_player] the two store calls. *)
Definition hostRoom (random : list nat) (c_room c_player : Call) : Act unit :=
  st <- closure ;;
  if negb (JS.truthy (JS.trim (playerName st))) then
    toast "Player name required" "Please enter your name to host a room." destructive ;;
    return_
  else
    setLoading true ;;
    let newRoomCode := generateRoomCode random in
    try_catch_finally
      (res <- await (insert_room c_room newRoomCode (playerName st) (Some 5%Z)) ;;
       match res with
       | Error roomError => throw roomError
       | Data roomData =>
           res <- await (insert_player c_player (Room.id roomData) (playerName st)
                           (Some true)) ;;
           match res with
           | Error playerError => throw playerError
           | Data playerData =>
               setCurrentRoom (Some roomData) ;;
               setCurrentPlayer (Some playerData) ;;
               setCurrentView room ;;
               toast "Room created!" (String.append "Room code: " newRoomCode) default
           end
       end)
      (fun error =>
         console_error "Error creating room:" error ;;
         toast "Error" "Failed to create room. Please try again." destructive)
      (setLoading false).

(** [joinRoom]; [c_room], [c_count] and [c_player] are the three store calls. *)
Definition joinRoom (c_room c_count c_player : Call) : Act unit :=
  st <- closure ;;
  if negb (JS.truthy (JS.trim (playerName st))) then
    toast "Player name required" "Please enter your name to join a room." destructive ;;
    return_
  else if negb (JS.truthy (JS.trim (roomCode st))) then
    toast "Room code required" "Please enter a room code to join." destructive ;;
    return_
  else
    setLoading true ;;
    try_catch_finally
      (res <- await (select_room_by_code c_room (JS.toUpperCase (roomCode st))) ;;
       match res with
       | Error _ =>
           toast "Room not found" "Please check the room code and try again." destructive ;;
           return_
       | Data roomData =>
           res <- await (select_players c_count (Room.id roomData)) ;;
           match res with
           | Error playersError => throw playersError
           | Data existingPlayers =>
               if (Room.max_players roomData <=? Z.of_nat (length existingPlayers))%Z then
                 toast "Room full" "This room is already full." destructive ;;
                 return_
               else
                 res <- await (insert_player c_player (Room.id roomData) (playerName st)
                                 (Some false)) ;;
                 match res with
                 | Error playerError => throw playerError
                 | Data playerData =>
                     setCurrentRoom (Some roomData) ;;
                     setCurrentPlayer (Some playerData) ;;
                     setCurrentView room ;;
                     toast "Joined room!"
                       (String.append "Joined room: " (JS.toUpperCase (roomCode st))) default
                 end
           end
       end)
      (fun error =>
         console_error "Error joining room:" error ;;
         toast "Error" "Failed to join room. Please try again." destructive)
      (setLoading false).

(** [leaveRoom]; the responses of the two deletes are not looked at. *)
Definition leaveRoom (c_player c_room : Call) : Act unit :=
  st <- closure ;;
  match currentPlayer st, currentRoom st with
  | Some currentPlayer, Some currentRoom =>
      try_catch
        (_ <- await (delete_player c_player (Player.id currentPlayer)) ;;
         (if Player.is_host currentPlayer
          then _ <- await (delete_room c_room (Room.id currentRoom)) ;; pure tt
          else pure tt) ;;
         setCurrentRoom None ;;
         setCurrentPlayer None ;;
         setPlayers [] ;;
         setCurrentView landing ;;
         setRoomCode "" ;;
         toast "Left room" "You have left the room." default)
        (fun error =>
           console_error "Error leaving room:" error ;;
           toast "Error" "Failed to leave room." destructive)
  | _, _ => return_
  end.

(** [startGame] *)
Definition startGame : Act unit :=
  st <- closure ;;
  if is_null (currentRoom st) || negb (is_host_opt (currentPlayer st)) then return_
  else if length (players st) <? 2 then
    toast "Not enough players" "At least 2 players are required to start the game." destructive ;;
    return_
  else navigate "/game".

(** The subscription's handler for a DELETE on the room's row. *)
Definition onRoomDeleted : Act unit :=
  setCurrentRoom None ;;
  setCurrentPlayer None ;;
  setPlayers [] ;;
  setCurrentView landing ;;
  setRoomCode "" ;;
  toast "Room closed" "The host has closed the room." default.

(** [onChange] of the two inputs of the landing screen. *)
Definition onChangePlayerName (value : string) : Act unit := setPlayerName value.
Definition onChangeRoomCode (value : string) : Act unit := setRoomCode (JS.toUpperCase value).

(** The Start Game button of the room screen, rendered for the host only:
    its [disabled] flag and the number in its [(Need n more)] label. *)
Record StartButton : Type := {
  disabled : bool;
  need_more : option Z
}.

Definition startGameButton (st : Lobby) : option StartButton :=
  if is_host_opt (currentPlayer st) then
    Some {| disabled := is_null (currentRoom st) || (length (players st) <? 2);
            need_more :=
              if negb (is_null (currentRoom st)) && (length (players st) <? 2)
              then Some (2 - Z.of_nat (length (players st)))%Z
              else None |}
  else None.

(** ** The lobby as a transition system *)

(** What can happen to one client: its user acts, the change notifier
    delivers an event, or other clients write to the store. *)
Inductive Event : Type :=
| TypeName (value : string)
| TypeCode (value : string)
| ClickHost (random : list nat) (c_room c_player : Call)
| ClickJoin (c_room c_count c_player : Call)
| ClickLeave (c_player c_room : Call)
| ClickStart
| PlayersChanged (c : Call)
| RoomDeleted
| Elsewhere (write : Store -> Store).

(** One event, its handler taken to its end before anything else happens.
    The handlers taken apart at their awaits, with other handlers and
    responses in between, are in [Async] below. *)
Definition step (e : Event) (w : World) : World :=
  match e with
  | TypeName value => run (onChangePlayerName value) w
  | TypeCode value => run (onChangeRoomCode value) w
  | ClickHost random c_room c_player => run (hostRoom random c_room c_player) w
  | ClickJoin c_room c_count c_player => run (joinRoom c_room c_count c_player) w
  | ClickLeave c_player c_room => run (leaveRoom c_player c_room) w
  | ClickStart => run startGame w
  | PlayersChanged c => run (fetchPlayers c) w
  | RoomDeleted => run onRoomDeleted w
  | Elsewhere write => {| store := write (store w); ui := ui w; out := out w |}
  end.

Definition steps (es : list Event) (w : World) : World :=
  fold_left (fun w e => step e w) es w.

Definition emptyStore : Store := {| public_rooms := []; public_players := [] |}.

Definition world (db : Store) (st : Lobby) : World :=
  {| store := db; ui := st; out := [] |}.

(** The comparison of the lookup: [.eq('code', roomCode.toUpperCase())]. *)
Definition code_matches (roomCode : string) (r : Room.t) : Prop :=
  Room.code r = JS.toUpperCase roomCode.

(** ** Integrity of the store, order of a roster *)

(** [room_id UUID NOT NULL REFERENCES public.rooms(id)]: every player row
    names an existing room. *)
Definition references_ok (db : Store) : Prop :=
  forall p, In p (public_players db) ->
    existsb (has_room_id (Player.room_id p)) (public_rooms db) = true.

(** An event that cannot break the foreign key: any handler of this client,
    or a write of another client that keeps it. *)
Definition keeps_references (e : Event) : Prop :=
  match e with
  | Elsewhere write => forall db, references_ok db -> references_ok (write db)
  | _ => True
  end.

(** Non-decreasing by join time. *)
Definition ascending_by_joined_at (l : list Player.t) : Prop :=
  Sorted (fun p q => (Player.joined_at p <= Player.joined_at q)%Z) l.

(** The client holds no room: the landing screen with no room, no player
    and an empty roster. *)
Definition Landing (st : Lobby) : Prop :=
  currentView st = landing /\ currentRoom st = None /\ currentPlayer st = None /\
  players st = [].

(** The client state after the five resets of [leaveRoom] and of the
    room-deleted handler. *)
Definition left_room (st : Lobby) : Lobby :=
  with_roomCode ""
    (with_currentView landing
       (with_players [] (with_currentPlayer None (with_currentRoom None st)))).

(** The client state after the three writes of a host or join action that
    went through, with [loading] back to [false]. *)
Definition entered (r : Room.t) (p : Player.t) (st : Lobby) : Lobby :=
  with_loading false
    (with_currentView room (with_currentPlayer (Some p) (with_currentRoom (Some r) st))).

(** The client is in a room as a given player. *)
Definition InRoom (r : Room.t) (p : Player.t) (st : Lobby) : Prop :=
  currentView st = room /\ currentRoom st = Some r /\ currentPlayer st = Some p.

(** ** The scenario of the specification: Alice hosts ABC123, Bob joins *)

Module Scenario.

Definition served (uuid : string) (t : Z) : Call :=
  {| transport_ok := true; gen_random_uuid := uuid; now := t |}.

(** A request that never reaches the store. *)
Definition dropped : Call :=
  {| transport_ok := false; gen_random_uuid := ""; now := 0%Z |}.

(** A draw that prints as [0.abc123z]. *)
Definition draw : list nat := [10; 11; 12; 1; 2; 3; 35].

Definition the_room : Room.t := Room.mk "r-1" "ABC123" "Alice" 5%Z 100%Z 100%Z.
Definition alice : Player.t := Player.mk "p-1" "r-1" "Alice" true 101%Z.
Definition bob : Player.t := Player.mk "p-2" "r-1" "Bob" false 205%Z.
Definition carol : Player.t := Player.mk "p-3" "r-1" "Carol" false 150%Z.

Definition hosted : Store :=
  {| public_rooms := [the_room]; public_players := [alice] |}.
Definition joined : Store :=
  {| public_rooms := [the_room]; public_players := [alice; bob] |}.

(** A room of capacity 2 holding two players. *)
Definition small_room : Room.t := Room.mk "r-2" "XY12" "Dan" 2%Z 300%Z 300%Z.
Definition dan : Player.t := Player.mk "p-4" "r-2" "Dan" true 301%Z.
Definition erin : Player.t := Player.mk "p-5" "r-2" "Erin" false 302%Z.
Definition full : Store :=
  {| public_rooms := [small_room]; public_players := [dan; erin] |}.

Definition at_landing (name code : string) : Lobby :=
  with_roomCode code (with_playerName name initialLobby).

Definition in_room_as (r : Room.t) (p : Player.t) (roster : list Player.t) : Lobby :=
  {| currentView := room; playerName := Player.name p; roomCode := "";
     currentRoom := Some r; currentPlayer := Some p; players := roster;
     loading := false |}.

End Scenario.

(** ** The constraints of the migration, capacity *)

(** [PRIMARY KEY] on both [id] columns and [UNIQUE] on [code]. *)
Definition keys_ok (db : Store) : Prop :=
  NoDup (map Room.id (public_rooms db)) /\
  NoDup (map Room.code (public_rooms db)) /\
  NoDup (map Player.id (public_players db)).

Definition constraints_ok (db : Store) : Prop := keys_ok db /\ references_ok db.

(** The number of Player rows of a room. *)
Definition roster_size (rid : string) (db : Store) : nat :=
  length (filter (in_room rid) (public_players db)).

(** No room holds more Player rows than its [max_players]. *)
Definition within_capacity (db : Store) : Prop :=
  forall r, In r (public_rooms db) ->
    (Z.of_nat (roster_size (Room.id r) db) <= Room.max_players r)%Z.

(** The constraints together with the capacity of every room. *)
Definition bounded (db : Store) : Prop := constraints_ok db /\ within_capacity db.

(** An event under which a property of the store cannot get lost: any
    handler of this client, or a write of another client that keeps it. *)
Definition keeps (P : Store -> Prop) (e : Event) : Prop :=
  match e with
  | Elsewhere write => forall db, P db -> P (write db)
  | _ => True
  end.

(** ** What the rendered screen lets happen *)

(** The landing screen ([currentView === 'landing']) holds the two inputs and
    the Host Room and Join Room buttons, all [disabled={loading}]; the room
    screen holds the leave buttons and, for the host, the Start Game button.
    The subscription of [useEffect] exists while [currentRoom] is set. *)
Definition enabled (st : Lobby) (e : Event) : bool :=
  match e with
  | TypeName _ | TypeCode _ | ClickHost _ _ _ | ClickJoin _ _ _ =>
      match currentView st with
      | landing => negb (loading st)
      | room => false
      end
  | ClickLeave _ _ =>
      match currentView st with
      | landing => false
      | room => true
      end
  | ClickStart =>
      match currentView st, startGameButton st with
      | room, Some button => negb (disabled button)
      | _, _ => false
      end
  | PlayersChanged _ | RoomDeleted => negb (is_null (currentRoom st))
  | Elsewhere _ => true
  end.

(** The view, the room and the player fit together: no room and no player
    at the landing screen; in the room view a room and a player of it. *)
Definition coherent (st : Lobby) : Prop :=
  match currentView st with
  | landing => currentRoom st = None /\ currentPlayer st = None
  | room =>
      exists r p,
        currentRoom st = Some r /\ currentPlayer st = Some p /\
        Player.room_id p = Room.id r
  end.

(** ** The handlers at their awaits *)

(** An [async] handler gives control back at every [await]: what it has
    read of the state cells it has read when it was called, the store call
    is answered some time later, and the statements after the [await] run
    when the response arrives, on the state cells as they then are.  Other
    handlers and other responses come in between. *)
Module Async.

(** A handler run that is over, or waits at an [await]: the store call it
    waits for, the statements up to the next [await] (or to the end) as a
    function of the response, and the rest of the run. *)
Inductive Run : Type :=
| Done
| Await (A : Type) (call : Call -> Store -> Response A * Store)
    (block : Response A -> Act unit) (next : Response A -> Run).
Arguments Await {A} call block next.

(** The [catch] and [finally] of [hostRoom] and [joinRoom]. *)
Definition failed (what message : string) (error : PostgrestError) : Act unit :=
  console_error what error ;;
  toast "Error" message destructive ;;
  setLoading false.

(** [fetchPlayers], called with the state cells [st]: the statements before
    the first [await], and the waiting run. *)
Definition fetchPlayers (st : Lobby) : Act unit * Run :=
  match currentRoom st with
  | None => (pure tt, Done)
  | Some currentRoom =>
      (pure tt,
       Await (fun c => select_players_ordered c (Room.id currentRoom))
         (fun res =>
            match res with
            | Error error => console_error "Error fetching players:" error
            | Data data => setPlayers data
            end)
         (fun _ => Done))
  end.

(** [hostRoom] *)
Definition hostRoom (random : list nat) (st : Lobby) : Act unit * Run :=
  if negb (JS.truthy (JS.trim (playerName st))) then
    (toast "Player name required" "Please enter your name to host a room." destructive,
     Done)
  else
    let newRoomCode := generateRoomCode random in
    let failed := failed "Error creating room:" "Failed to create room. Please try again." in
    (setLoading true,
     Await (fun c => insert_room c newRoomCode (playerName st) (Some 5%Z))
       (fun res =>
          match res with
          | Error roomError => failed roomError
          | Data _ => pure tt
          end)
       (fun res =>
          match res with
          | Error _ => Done
          | Data roomData =>
              Await (fun c => insert_player c (Room.id roomData) (playerName st) (Some true))
                (fun res =>
                   match res with
                   | Error playerError => failed playerError
                   | Data playerData =>
                       setCurrentRoom (Some roomData) ;;
                       setCurrentPlayer (Some playerData) ;;
                       setCurrentView room ;;
                       toast "Room created!" (String.append "Room code: " newRoomCode)
                         default ;;
                       setLoading false
                   end)
                (fun _ => Done)
          end)).

(** [joinRoom] *)
Definition joinRoom (st : Lobby) : Act unit * Run :=
  if negb (JS.truthy (JS.trim (playerName st))) then
    (toast "Player name required" "Please enter your name to join a room." destructive,
     Done)
  else if negb (JS.truthy (JS.trim (roomCode st))) then
    (toast "Room code required" "Please enter a room code to join." destructive, Done)
  else
    let failed := failed "Error joining room:" "Failed to join room. Please try again." in
    (setLoading true,
     Await (fun c => select_room_by_code c (JS.toUpperCase (roomCode st)))
       (fun res =>
          match res with
          | Error _ =>
              toast "Room not found" "Please check the room code and try again."
                destructive ;;
              setLoading false
          | Data _ => pure tt
          end)
       (fun res =>
          match res with
          | Error _ => Done
          | Data roomData =>
              let full (existingPlayers : list Player.t) :=
                (Room.max_players roomData <=? Z.of_nat (length existingPlayers))%Z in
              Await (fun c => select_players c (Room.id roomData))
                (fun res =>
                   match res with
                   | Error playersError => failed playersError
                   | Data existingPlayers =>
                       if full existingPlayers then
                         toast "Room full" "This room is already full." destructive ;;
                         setLoading false
                       else pure tt
                   end)
                (fun res =>
                   match res with
                   | Error _ => Done
                   | Data existingPlayers =>
                       if full existingPlayers then Done
                       else
                         Await (fun c => insert_player c (Room.id roomData) (playerName st)
                                           (Some false))
                           (fun res =>
                              match res with
                              | Error playerError => failed playerError
                              | Data playerData =>
                                  setCurrentRoom (Some roomData) ;;
                                  setCurrentPlayer (Some playerData) ;;
                                  setCurrentView room ;;
                                  toast "Joined room!"
                                    (String.append "Joined room: "
                                       (JS.toUpperCase (roomCode st))) default ;;
                                  setLoading false
                              end)
                           (fun _ => Done)
                   end)
          end)).

(** The statements of [leaveRoom] after its deletes. *)
Definition left : Act unit :=
  setCurrentRoom None ;;
  setCurrentPlayer None ;;
  setPlayers [] ;;
  setCurrentView landing ;;
  setRoomCode "" ;;
  toast "Left room" "You have left the room." default.

(** [leaveRoom] *)
Definition leaveRoom (st : Lobby) : Act unit * Run :=
  match currentPlayer st, currentRoom st with
  | Some currentPlayer, Some currentRoom =>
      (pure tt,
       Await (fun c => delete_player c (Player.id currentPlayer))
         (fun _ => if Player.is_host currentPlayer then pure tt else left)
         (fun _ =>
            if Player.is_host currentPlayer
            then Await (fun c => delete_room c (Room.id currentRoom))
                   (fun _ => left) (fun _ => Done)
            else Done))
  | _, _ => (pure tt, Done)
  end.

(** What starts a handler: the user, or the change notifier. *)
Inductive Trigger : Type :=
| TypeName (value : string)
| TypeCode (value : string)
| ClickHost (random : list nat)
| ClickJoin
| ClickLeave
| ClickStart
| PlayersChanged
| RoomDeleted.

(** The handler of a trigger, called with the state cells [st]. *)
Definition handler (t : Trigger) (st : Lobby) : Act unit * Run :=
  match t with
  | TypeName value => (onChangePlayerName value, Done)
  | TypeCode value => (onChangeRoomCode value, Done)
  | ClickHost random => hostRoom random st
  | ClickJoin => joinRoom st
  | ClickLeave => leaveRoom st
  | ClickStart => (startGame, Done)
  | PlayersChanged => fetchPlayers st
  | RoomDeleted => (onRoomDeleted, Done)
  end.

(** A run in flight: its call is not answered yet, or it is answered and
    the response is on its way with the statements it will run. *)
Inductive Task : Type :=
| Waiting (r : Run)
| Ready (block : Act unit) (next : Run).

Record State : Type := {
  current : World;
  pending : list Task
}.

Inductive Event : Type :=
| Start (t : Trigger)
| Answer (i : nat) (c : Call)
| Deliver (i : nat)
| Elsewhere (write : Store -> Store).

Fixpoint replace_nth {A : Type} (i : nat) (x : A) (l : list A) : list A :=
  match l, i with
  | [], _ => []
  | _ :: l', O => x :: l'
  | a :: l', S i' => a :: replace_nth i' x l'
  end.

Fixpoint remove_nth {A : Type} (i : nat) (l : list A) : list A :=
  match l, i with
  | [], _ => []
  | _ :: l', O => l'
  | a :: l', S i' => a :: remove_nth i' l'
  end.

Definition with_store (db : Store) (w : World) : World :=
  {| store := db; ui := ui w; out := out w |}.

(** One step: a handler starts and runs up to its first [await]; the store
    answers the call of a waiting run; a response arrives and the run goes
    on up to its next [await]; another client writes. *)
Definition step (e : Event) (a : State) : State :=
  match e with
  | Start t =>
      let (block, r) := handler t (ui (current a)) in
      {| current := run block (current a);
         pending := pending a ++ match r with
                                 | Done => []
                                 | _ => [Waiting r]
                                 end |}
  | Answer i c =>
      match nth_error (pending a) i with
      | Some (Waiting (Await call block next)) =>
          let (res, db) := call c (store (current a)) in
          {| current := with_store db (current a);
             pending := replace_nth i (Ready (block res) (next res)) (pending a) |}
      | _ => a
      end
  | Deliver i =>
      match nth_error (pending a) i with
      | Some (Ready block next) =>
          {| current := run block (current a);
             pending := match next with
                        | Done => remove_nth i (pending a)
                        | _ => replace_nth i (Waiting next) (pending a)
                        end |}
      | _ => a
      end
  | Elsewhere write =>
      {| current := with_store (write (store (current a))) (current a);
         pending := pending a |}
  end.

Definition steps (es : list Event) (a : State) : State :=
  fold_left (fun a e => step e a) es a.

Definition idle (w : World) : State := {| current := w; pending := [] |}.

(** A run taken to its end without anything in between, each call answered
    in turn. *)
Fixpoint complete (cs : list Call) (r : Run) (w : World) {struct r} : World :=
  match r, cs with
  | Await call block next, c :: cs' =>
      let (res, db) := call c (store w) in
      complete cs' (next res) (run (block res) (with_store db w))
  | _, _ => w
  end.

(** A run all of whose statements still to come keep a property of the
    state cells, whatever the store answers. *)
Fixpoint keeps_ui (P : Lobby -> Prop) (r : Run) {struct r} : Prop :=
  match r with
  | Done => True
  | Await call block next =>
      forall c db,
        (forall w, P (ui w) -> P (ui (run (block (fst (call c db))) w))) /\
        keeps_ui P (next (fst (call c db)))
  end.

(** The same of a run in flight. *)
Definition task_keeps (P : Lobby -> Prop) (t : Task) : Prop :=
  match t with
  | Waiting r => keeps_ui P r
  | Ready block next =>
      (forall w, P (ui w) -> P (ui (run block w))) /\ keeps_ui P next
  end.

End Async.

(** What holds of the state cells whenever no statement is running: view,
    room and player fit together and the roster is in join order. *)
Definition settled (st : Lobby) : Prop :=
  coherent st /\ ascending_by_joined_at (players st).

(** The state cells are settled and every run in flight will keep them so. *)
Definition calm (a : Async.State) : Prop :=
  settled (ui (Async.current a)) /\ Forall (Async.task_keeps settled) (Async.pending a).

(** An output that assigns the location. *)
Definition navigates (o : Output) : bool :=
  match o with
  | Navigate _ => true
  | _ => false
  end.

(** An output that is a toast, neither a log line nor a navigation. *)
Definition is_toast (o : Output) : Prop :=
  match o with
  | Toast _ _ _ => True
  | _ => False
  end.

(** ** The component before the store: src/components/GameLobby.tsx *)

Module Local.

Module Player.
Record t : Type := mk {
  id : string;
  name : string;
  isHost : bool
}.
End Player.

Module Room.
Record t : Type := mk {
  id : string;
  code : string;
  host : string;
  players : list Player.t;
  maxPlayers : Z
}.
End Room.

Record Lobby : Type := {
  currentView : View;
  playerName : string;
  roomCode : string;
  currentRoom : option Room.t;
  currentPlayer : option Player.t
}.

Definition initialLobby : Lobby :=
  {| currentView := landing; playerName := ""; roomCode := "";
     currentRoom := None; currentPlayer := None |}.

Definition setCurrentView (v : View) (st : Lobby) : Lobby :=
  {| currentView := v; playerName := playerName st; roomCode := roomCode st;
     currentRoom := currentRoom st; currentPlayer := currentPlayer st |}.
Definition setPlayerName (v : string) (st : Lobby) : Lobby :=
  {| currentView := currentView st; playerName := v; roomCode := roomCode st;
     currentRoom := currentRoom st; currentPlayer := currentPlayer st |}.
Definition setRoomCode (v : string) (st : Lobby) : Lobby :=
  {| currentView := currentView st; playerName := playerName st; roomCode := v;
     currentRoom := currentRoom st; currentPlayer := currentPlayer st |}.
Definition setCurrentRoom (v : option Room.t) (st : Lobby) : Lobby :=
  {| currentView := currentView st; playerName := playerName st; roomCode := roomCode st;
     currentRoom := v; currentPlayer := currentPlayer st |}.
Definition setCurrentPlayer (v : option Player.t) (st : Lobby) : Lobby :=
  {| currentView := currentView st; playerName := playerName st; roomCode := roomCode st;
     currentRoom := currentRoom st; currentPlayer := v |}.

(** [currentPlayer?.isHost] as a condition *)
Definition isHost_opt (p : option Player.t) : bool :=
  match p with
  | Some p => Player.isHost p
  | None => false
  end.

(** [n.toString()] of an integer Number *)
Definition toString (n : Z) : string := DecimalString.NilZero.string_of_int (Z.to_int n).

(** [hostRoom]: the state after the handler and what it shows. *)
Definition hostRoom (random : list nat) (st : Lobby) : Lobby * list Output :=
  if negb (JS.truthy (JS.trim (playerName st))) then
    (st, [Toast "Player name required" "Please enter your name to host a room." destructive])
  else
    let newRoomCode := generateRoomCode random in
    let player := Player.mk "1" (playerName st) true in
    let room' := Room.mk newRoomCode newRoomCode (playerName st) [player] 5%Z in
    (setCurrentView room (setCurrentPlayer (Some player) (setCurrentRoom (Some room') st)),
     [Toast "Room created!" (String.append "Room code: " newRoomCode) default]).

(** [joinRoom]; [now] is the value of [Date.now()]. *)
Definition joinRoom (now : Z) (st : Lobby) : Lobby * list Output :=
  if negb (JS.truthy (JS.trim (playerName st))) then
    (st, [Toast "Player name required" "Please enter your name to join a room." destructive])
  else if negb (JS.truthy (JS.trim (roomCode st))) then
    (st, [Toast "Room code required" "Please enter a room code to join." destructive])
  else
    let player := Player.mk (toString now) (playerName st) false in
    let room' := Room.mk (roomCode st) (roomCode st) "Host Player"
                   [Player.mk "1" "Host Player" true; player] 5%Z in
    (setCurrentView room (setCurrentPlayer (Some player) (setCurrentRoom (Some room') st)),
     [Toast "Joined room!" (String.append "Joined room: " (roomCode st)) default]).

Definition reset (st : Lobby) : Lobby :=
  setRoomCode "" (setCurrentView landing (setCurrentPlayer None (setCurrentRoom None st))).

(** [leaveRoom] *)
Definition leaveRoom (st : Lobby) : Lobby * list Output :=
  (reset st, [Toast "Left room" "You have left the room." default]).

(** [cancelRoom] *)
Definition cancelRoom (st : Lobby) : Lobby * list Output :=
  if isHost_opt (currentPlayer st) then
    (reset st, [Toast "Room cancelled" "The room has been cancelled." default])
  else (st, []).

(** [startGame]; the assignment to [window.location.href] is the [Navigate]
    output. *)
Definition startGame (st : Lobby) : Lobby * list Output :=
  match currentRoom st with
  | None => (st, [])
  | Some currentRoom =>
      if negb (isHost_opt (currentPlayer st)) then (st, [])
      else if length (Room.players currentRoom) <? 2 then
        (st, [Toast "Not enough players"
                "At least 2 players are required to start the game." destructive])
      else (st, [Navigate "/game"])
  end.

Inductive Event : Type :=
| TypeName (value : string)
| TypeCode (value : string)
| ClickHost (random : list nat)
| ClickJoin (now : Z)
| ClickLeave
| ClickCancel
| ClickStart.

Definition step (e : Event) (st : Lobby) : Lobby * list Output :=
  match e with
  | TypeName value => (setPlayerName value st, [])
  | TypeCode value => (setRoomCode (JS.toUpperCase value) st, [])
  | ClickHost random => hostRoom random st
  | ClickJoin now => joinRoom now st
  | ClickLeave => leaveRoom st
  | ClickCancel => cancelRoom st
  | ClickStart => startGame st
  end.

(** The state after a sequence of events and everything shown on the way. *)
Fixpoint steps (es : list Event) (st : Lobby) : Lobby * list Output :=
  match es with
  | [] => (st, [])
  | e :: es' =>
      let (st1, shown1) := step e st in
      let (st2, shown2) := steps es' st1 in
      (st2, shown1 ++ shown2)
  end.

(** A room as the handlers build it: its roster has exactly one host and
    fits the capacity, the holder is on the roster, and a holder who is the
    host is alone. *)
Definition room_ok (st : Lobby) : Prop :=
  match currentRoom st, currentPlayer st with
  | None, None => True
  | Some r, Some p =>
      In p (Room.players r) /\
      length (filter Player.isHost (Room.players r)) = 1 /\
      (Z.of_nat (length (Room.players r)) <= Room.maxPlayers r)%Z /\
      (Player.isHost p = true -> length (Room.players r) = 1)
  | _, _ => False
  end.

End Local.

(** * Properties *)

(** ** Strings and the room code *)

Section StringFacts.

Example generateRoomCode_half : generateRoomCode [18] = "I".
Proof. reflexivity. Qed.

Example generateRoomCode_zero : generateRoomCode [] = "".
Proof. reflexivity. Qed.

Example generateRoomCode_long :
  generateRoomCode [10; 11; 12; 1; 2; 3; 35; 0; 7] = "ABC123".
Proof. reflexivity. Qed.

Lemma substring0_length (m : nat) (s : string) :
  String.length (String.substring 0 m s) = Nat.min m (String.length s).
Proof.
  revert m; induction s as [|c s IH]; intros [|m]; simpl; auto.
Qed.

Lemma substring0_forallb (p : ascii -> bool) (m : nat) (s : string) :
  JS.forallb_string p s = true ->
  JS.forallb_string p (String.substring 0 m s) = true.
Proof.
  revert m; induction s as [|c s IH]; intros [|m]; simpl; auto.
  intros H; apply andb_true_iff in H as [Hc Hs].
  rewrite Hc; simpl; auto.
Qed.

Lemma toUpperCase_length (s : string) :
  String.length (JS.toUpperCase s) = String.length s.
Proof. induction s; simpl; congruence. Qed.

Lemma toUpperCase_forallb (p : ascii -> bool) (s : string) :
  JS.forallb_string (fun c => p (JS.upperChar c)) s = true ->
  JS.forallb_string p (JS.toUpperCase s) = true.
Proof.
  induction s as [|c s IH]; simpl; auto.
  intros H; apply andb_true_iff in H as [Hc Hs].
  rewrite Hc; simpl; auto.
Qed.

Lemma string_of_list_ascii_length (l : list ascii) :
  String.length (string_of_list_ascii l) = length l.
Proof. induction l; simpl; congruence. Qed.

Lemma digitChar_upper_base36 (d : nat) :
  d < 36 -> JS.isUpperBase36 (JS.upperChar (JS.digitChar d)) = true.
Proof.
  intros Hd.
  assert (Hall : forallb (fun d => JS.isUpperBase36 (JS.upperChar (JS.digitChar d)))
                   (seq 0 36) = true) by reflexivity.
  rewrite forallb_forall in Hall.
  apply Hall, in_seq; lia.
Qed.

Lemma digits_upper_base36 (frac : list nat) :
  Forall (fun d => d < 36) frac ->
  JS.forallb_string (fun c => JS.isUpperBase36 (JS.upperChar c))
    (string_of_list_ascii (map JS.digitChar frac)) = true.
Proof.
  induction 1 as [|d frac Hd _ IH]; simpl; auto.
  rewrite digitChar_upper_base36 by assumption; simpl; exact IH.
Qed.

Lemma substring0_beyond (s : string) (n m : nat) :
  String.length s <= n -> String.length s <= m ->
  String.substring 0 n s = String.substring 0 m s.
Proof.
  revert n m; induction s as [|c s IH]; intros [|n] [|m]; simpl; intros; try lia; auto.
  f_equal; apply IH; lia.
Qed.

Lemma substring_2_8_of_fraction (ds : string) :
  1 <= String.length ds ->
  JS.substring 2 8 (String.append "0." ds) = String.substring 0 6 ds.
Proof.
  intros Hds. unfold JS.substring.
  assert (Hlen : String.length (String.append "0." ds) = 2 + String.length ds) by reflexivity.
  rewrite Hlen.
  assert (Hskip : forall m, String.substring 2 m (String.append "0." ds) = String.substring 0 m ds)
    by (intros m; reflexivity).
  replace (Nat.min 2 (2 + String.length ds)) with 2 by lia.
  destruct (Nat.le_gt_cases 6 (String.length ds)) as [Hlong | Hshort].
  - replace (Nat.min 8 (2 + String.length ds)) with 8 by lia.
    apply Hskip.
  - replace (Nat.min 8 (2 + String.length ds)) with (2 + String.length ds) by lia.
    replace (Nat.min 2 (2 + String.length ds)) with 2 by lia.
    replace (Nat.max 2 (2 + String.length ds) - 2) with (String.length ds) by lia.
    rewrite Hskip. apply substring0_beyond; lia.
Qed.

(** The code is the upper-cased prefix of at most six fraction digits. *)
Lemma generateRoomCode_prefix (frac : list nat) :
  generateRoomCode frac =
  JS.toUpperCase (String.substring 0 6 (string_of_list_ascii (map JS.digitChar frac))).
Proof.
  destruct frac as [|d frac]; [reflexivity|].
  unfold generateRoomCode, JS.toString36.
  rewrite substring_2_8_of_fraction; [reflexivity|].
  rewrite string_of_list_ascii_length; simpl; lia.
Qed.

End StringFacts.

(** C10.  Whatever [Math.random()] draws in [0,1), the room code has at most
    six characters, each one of [0]..[9] or [A]..[Z]: it is the upper-cased
    run of the first six fraction digits that [toString(36)] prints, so it
    has fewer than six characters whenever fewer than six digits are printed
    (one character for the draw 0.5, none for the draw 0). *)
Theorem generateRoomCode_at_most_6_upper_base36 :
  (forall frac : list nat,
      Forall (fun d => d < 36) frac ->
      String.length (generateRoomCode frac) <= 6 /\
      String.length (generateRoomCode frac) = Nat.min 6 (length frac) /\
      JS.forallb_string JS.isUpperBase36 (generateRoomCode frac) = true) /\
  (exists frac : list nat,
      Forall (fun d => d < 36) frac /\ String.length (generateRoomCode frac) < 6).
Proof.
  split.
  - intros frac Hfrac.
    rewrite generateRoomCode_prefix, toUpperCase_length, substring0_length,
      string_of_list_ascii_length, length_map.
    split; [lia | split; [reflexivity|]].
    apply toUpperCase_forallb, substring0_forallb, digits_upper_base36, Hfrac.
  - exists [18]. split; [repeat constructor | simpl; lia].
Qed.

Lemma generateRoomCode_at_most_6_upper_base36_witness :
  Forall (fun d => d < 36) [10; 11; 12; 1; 2; 3; 35] /\
  String.length (generateRoomCode [10; 11; 12; 1; 2; 3; 35]) <= 6.
Proof.
  assert (H : Forall (fun d => d < 36) [10; 11; 12; 1; 2; 3; 35])
    by (repeat constructor; lia).
  split; [exact H|].
  exact (proj1 (proj1 generateRoomCode_at_most_6_upper_base36 _ H)).
Defined.

(** ** Store calls *)

Section StoreFacts.

Lemma insert_room_Data (c : Call) (code host_name : string) (mp : option Z)
    (db db' : Store) (r : Room.t) :
  insert_room c code host_name mp db = (Data r, db') ->
  r = Room.mk (gen_random_uuid c) code host_name (or_default default_max_players mp)
        (now c) (now c) /\
  public_rooms db' = public_rooms db ++ [r] /\
  public_players db' = public_players db /\
  existsb (has_room_id (Room.id r)) (public_rooms db) = false /\
  existsb (has_code code) (public_rooms db) = false.
Proof.
  unfold insert_room.
  destruct (transport_ok c); simpl; [|discriminate].
  destruct (existsb (has_room_id (gen_random_uuid c)) (public_rooms db)) eqn:Hid;
    [discriminate|].
  destruct (existsb (has_code code) (public_rooms db)) eqn:Hcode; [discriminate|].
  intros H; injection H as <- <-; simpl; auto.
Qed.

Lemma insert_room_Error (c : Call) (code host_name : string) (mp : option Z)
    (db db' : Store) (e : PostgrestError) :
  insert_room c code host_name mp db = (Error e, db') -> db' = db.
Proof.
  unfold insert_room.
  repeat match goal with |- context [if ?b then _ else _] => destruct b end;
    intros H; inversion H; reflexivity.
Qed.

Lemma insert_player_Data (c : Call) (rid name : string) (h : option bool)
    (db db' : Store) (p : Player.t) :
  insert_player c rid name h db = (Data p, db') ->
  p = Player.mk (gen_random_uuid c) rid name (or_default default_is_host h) (now c) /\
  public_rooms db' = public_rooms db /\
  public_players db' = public_players db ++ [p] /\
  existsb (has_room_id rid) (public_rooms db) = true.
Proof.
  unfold insert_player.
  destruct (transport_ok c); simpl; [|discriminate].
  destruct (existsb (has_player_id (gen_random_uuid c)) (public_players db)); [discriminate|].
  destruct (existsb (has_room_id rid) (public_rooms db)); simpl; [|discriminate].
  intros H; injection H as <- <-; simpl; auto.
Qed.

Lemma insert_player_Error (c : Call) (rid name : string) (h : option bool)
    (db db' : Store) (e : PostgrestError) :
  insert_player c rid name h db = (Error e, db') -> db' = db.
Proof.
  unfold insert_player.
  repeat match goal with |- context [if ?b then _ else _] => destruct b end;
    intros H; inversion H; reflexivity.
Qed.

Lemma select_room_by_code_store (c : Call) (code : string) (db : Store) :
  snd (select_room_by_code c code db) = db.
Proof.
  unfold select_room_by_code.
  destruct (transport_ok c); simpl; auto.
  destruct (filter (has_code code) (public_rooms db)) as [|r [|r' l]]; reflexivity.
Qed.

Lemma select_room_by_code_Data (c : Call) (code : string) (db db' : Store) (r : Room.t) :
  select_room_by_code c code db = (Data r, db') ->
  db' = db /\ In r (public_rooms db) /\ Room.code r = code.
Proof.
  intros H.
  pose proof (select_room_by_code_store c code db) as Hs.
  rewrite H in Hs; simpl in Hs. split; [assumption|].
  unfold select_room_by_code in H.
  destruct (transport_ok c); simpl in H; [|discriminate].
  destruct (filter (has_code code) (public_rooms db)) as [|r0 [|r1 l]] eqn:Hf;
    try discriminate.
  injection H as -> _.
  assert (Hin : In r (filter (has_code code) (public_rooms db)))
    by (rewrite Hf; left; reflexivity).
  apply filter_In in Hin as [Hin Hc].
  split; [assumption | apply String.eqb_eq, Hc].
Qed.

(** No row with the code: the lookup reports an error whatever the transport does. *)
Lemma select_room_by_code_none (c : Call) (code : string) (db : Store) :
  (forall r, In r (public_rooms db) -> Room.code r <> code) ->
  exists e, select_room_by_code c code db = (Error e, db).
Proof.
  intros Hnone. unfold select_room_by_code.
  destruct (transport_ok c); simpl; [|eauto].
  destruct (filter (has_code code) (public_rooms db)) as [|r l] eqn:Hf; [eauto|].
  exfalso.
  assert (Hin : In r (filter (has_code code) (public_rooms db)))
    by (rewrite Hf; left; reflexivity).
  apply filter_In in Hin as [Hin Hc].
  apply (Hnone r Hin), String.eqb_eq, Hc.
Qed.

Lemma select_players_Data (c : Call) (rid : string) (db db' : Store) (l : list Player.t) :
  select_players c rid db = (Data l, db') ->
  db' = db /\ l = filter (in_room rid) (public_players db).
Proof.
  unfold select_players. destruct (transport_ok c); simpl; [|discriminate].
  intros H; injection H as <- <-; auto.
Qed.

End StoreFacts.

(** ** Hosting *)

Ltac act_unfold :=
  unfold run, bind, closure, pure, return_, throw, try_catch, try_catch_finally, await,
    toast, console_error, navigate, emit,
    setCurrentView, setPlayerName, setRoomCode, setCurrentRoom, setCurrentPlayer,
    setPlayers, setLoading, update; simpl.

Lemma truthy_trim_nonempty (s : string) :
  JS.trim s <> "" -> JS.truthy (JS.trim s) = true.
Proof. destruct (JS.trim s); [congruence | reflexivity]. Qed.

(** C1.  A host action with a name that is not blank and whose two inserts
    both return a row appends exactly that Room row and exactly that Player
    row to the store, the Player row having [is_host = true] and the id of
    the Room row as its [room_id], and leaves the client in the room view
    with [currentRoom] and [currentPlayer] set to the two rows. *)
Theorem hostRoom_creates_one_room_and_its_host
    (random : list nat) (c_room c_player : Call) (w : World)
    (roomData : Room.t) (playerData : Player.t) (db1 db2 : Store) :
  JS.trim (playerName (ui w)) <> "" ->
  insert_room c_room (generateRoomCode random) (playerName (ui w)) (Some 5%Z) (store w)
    = (Data roomData, db1) ->
  insert_player c_player (Room.id roomData) (playerName (ui w)) (Some true) db1
    = (Data playerData, db2) ->
  let w' := run (hostRoom random c_room c_player) w in
  public_rooms (store w') = public_rooms (store w) ++ [roomData] /\
  public_players (store w') = public_players (store w) ++ [playerData] /\
  Player.is_host playerData = true /\
  Player.room_id playerData = Room.id roomData /\
  currentView (ui w') = room /\
  currentRoom (ui w') = Some roomData /\
  currentPlayer (ui w') = Some playerData /\
  loading (ui w') = false /\
  out w' = out w ++ [Toast "Room created!"
                       (String.append "Room code: " (generateRoomCode random)) default].
Proof.
  intros Hname Hroom Hplayer w'.
  assert (Hw' : w' = {| store := db2;
                        ui := with_loading false
                                (with_currentView room
                                   (with_currentPlayer (Some playerData)
                                      (with_currentRoom (Some roomData)
                                         (with_loading true (ui w)))));
                        out := out w ++ [Toast "Room created!"
                                 (String.append "Room code: " (generateRoomCode random))
                                 default] |}).
  { subst w'. unfold hostRoom. act_unfold.
    rewrite (truthy_trim_nonempty _ Hname). simpl.
    rewrite Hroom. simpl. rewrite Hplayer. reflexivity. }
  rewrite Hw'. simpl.
  apply insert_room_Data in Hroom as (_ & Hr1 & Hp1 & _).
  apply insert_player_Data in Hplayer as (Hrow & Hr2 & Hp2 & _).
  rewrite Hr2, Hp2, Hr1, Hp1.
  repeat split; rewrite Hrow; reflexivity.
Qed.

Lemma hostRoom_creates_one_room_and_its_host_witness :
  let w := world emptyStore (Scenario.at_landing "Alice" "") in
  let w' := run (hostRoom Scenario.draw (Scenario.served "r-1" 100)
                   (Scenario.served "p-1" 101)) w in
  public_rooms (store w') = [Scenario.the_room] /\
  public_players (store w') = [Scenario.alice] /\
  InRoom Scenario.the_room Scenario.alice (ui w').
Proof.
  intros w w'.
  assert (Hname : JS.trim (playerName (ui w)) <> "") by (vm_compute; discriminate).
  destruct (hostRoom_creates_one_room_and_its_host
              Scenario.draw (Scenario.served "r-1" 100) (Scenario.served "p-1" 101) w
              Scenario.the_room Scenario.alice
              {| public_rooms := [Scenario.the_room]; public_players := [] |}
              Scenario.hosted
              Hname eq_refl eq_refl)
    as (Hrooms & Hplayers & _ & _ & Hview & Hroom & Hplayer & _).
  exact (conj Hrooms (conj Hplayers (conj Hview (conj Hroom Hplayer)))).
Defined.

(** ** Joining *)

Lemma with_loading_idle (st : Lobby) :
  loading st = false -> with_loading false st = st.
Proof. destruct st; simpl; intros ->; reflexivity. Qed.

(** C2.  A join action whose lookup returns a room and whose roster query
    returns at least [max_players] rows for it is answered with the
    room-full toast only: no store call follows, so the store is as it was
    and in particular no Player row is created, and of the client state
    only the [loading] flag is written, back to [false]; a client that was on
    the landing screen and idle is left exactly as it was. *)
Theorem joinRoom_full_room_rejected
    (c_room c_count c_player : Call) (w : World)
    (roomData : Room.t) (existingPlayers : list Player.t) :
  JS.trim (playerName (ui w)) <> "" ->
  JS.trim (roomCode (ui w)) <> "" ->
  fst (select_room_by_code c_room (JS.toUpperCase (roomCode (ui w))) (store w))
    = Data roomData ->
  fst (select_players c_count (Room.id roomData) (store w)) = Data existingPlayers ->
  (Room.max_players roomData <= Z.of_nat (length existingPlayers))%Z ->
  let w' := run (joinRoom c_room c_count c_player) w in
  store w' = store w /\
  public_players (store w') = public_players (store w) /\
  out w' = out w ++ [Toast "Room full" "This room is already full." destructive] /\
  ui w' = with_loading false (ui w) /\
  (loading (ui w) = false -> ui w' = ui w) /\
  (Landing (ui w) -> Landing (ui w')).
Proof.
  intros Hname Hcode Hroom Hcount Hfull w'.
  assert (Hw' : w' = {| store := store w; ui := with_loading false (ui w);
                        out := out w ++ [Toast "Room full" "This room is already full."
                                           destructive] |}).
  { subst w'. unfold joinRoom. act_unfold.
    rewrite (truthy_trim_nonempty _ Hname), (truthy_trim_nonempty _ Hcode). simpl.
    destruct (select_room_by_code c_room (JS.toUpperCase (roomCode (ui w))) (store w))
      as [res db1] eqn:Hsel.
    simpl in Hroom; subst res.
    apply select_room_by_code_Data in Hsel as (-> & _). simpl.
    destruct (select_players c_count (Room.id roomData) (store w)) as [res db2] eqn:Hsel.
    simpl in Hcount; subst res.
    apply select_players_Data in Hsel as (-> & _). simpl.
    apply Z.leb_le in Hfull. rewrite Hfull. reflexivity. }
  rewrite Hw'; simpl.
  repeat split; auto using with_loading_idle; destruct H as (? & ? & ? & ?); assumption.
Qed.

Lemma joinRoom_full_room_rejected_witness :
  let w := world Scenario.full (Scenario.at_landing "Fay" "xy12") in
  let w' := run (joinRoom (Scenario.served "" 400) (Scenario.served "" 401)
                   (Scenario.served "p-6" 402)) w in
  store w' = Scenario.full /\ ui w' = ui w /\
  out w' = [Toast "Room full" "This room is already full." destructive].
Proof.
  intros w w'.
  assert (Hname : JS.trim (playerName (ui w)) <> "") by (vm_compute; discriminate).
  assert (Hcode : JS.trim (roomCode (ui w)) <> "") by (vm_compute; discriminate).
  assert (Hfull : (Room.max_players Scenario.small_room
                   <= Z.of_nat (length [Scenario.dan; Scenario.erin]))%Z)
    by (vm_compute; discriminate).
  destruct (joinRoom_full_room_rejected
              (Scenario.served "" 400) (Scenario.served "" 401) (Scenario.served "p-6" 402)
              w Scenario.small_room [Scenario.dan; Scenario.erin]
              Hname Hcode eq_refl eq_refl Hfull)
    as (Hstore & _ & Hout & _ & Hui & _).
  exact (conj Hstore (conj (Hui eq_refl) Hout)).
Defined.

(** C4.  A join action with a name and a code that are not blank, where no
    room row has the code that the lookup compares with (the upper-cased
    input), is answered with the not-found toast only: the store is as it
    was, no row created or modified, and of the client state only the
    [loading] flag is written, back to [false]; a client that was on the
    landing screen and idle is left exactly as it was. *)
Theorem joinRoom_unknown_code_not_found
    (c_room c_count c_player : Call) (w : World) :
  JS.trim (playerName (ui w)) <> "" ->
  JS.trim (roomCode (ui w)) <> "" ->
  (forall r, In r (public_rooms (store w)) -> ~ code_matches (roomCode (ui w)) r) ->
  let w' := run (joinRoom c_room c_count c_player) w in
  store w' = store w /\
  out w' = out w ++ [Toast "Room not found" "Please check the room code and try again."
                       destructive] /\
  ui w' = with_loading false (ui w) /\
  (loading (ui w) = false -> ui w' = ui w) /\
  (Landing (ui w) -> Landing (ui w')).
Proof.
  intros Hname Hcode Hnone w'.
  assert (Hw' : w' = {| store := store w; ui := with_loading false (ui w);
                        out := out w ++ [Toast "Room not found"
                                           "Please check the room code and try again."
                                           destructive] |}).
  { subst w'. unfold joinRoom. act_unfold.
    rewrite (truthy_trim_nonempty _ Hname), (truthy_trim_nonempty _ Hcode). simpl.
    destruct (select_room_by_code_none c_room (JS.toUpperCase (roomCode (ui w))) (store w))
      as [e He]; [exact Hnone|].
    rewrite He. reflexivity. }
  rewrite Hw'; simpl.
  repeat split; auto using with_loading_idle; destruct H as (? & ? & ? & ?); assumption.
Qed.

Lemma joinRoom_unknown_code_not_found_witness :
  let w := world Scenario.hosted (Scenario.at_landing "Bob" "zzz999") in
  let w' := run (joinRoom (Scenario.served "" 200) (Scenario.served "" 201)
                   (Scenario.served "p-2" 205)) w in
  store w' = Scenario.hosted /\ ui w' = ui w /\
  out w' = [Toast "Room not found" "Please check the room code and try again." destructive].
Proof.
  intros w w'.
  assert (Hname : JS.trim (playerName (ui w)) <> "") by (vm_compute; discriminate).
  assert (Hcode : JS.trim (roomCode (ui w)) <> "") by (vm_compute; discriminate).
  assert (Hnone : forall r, In r (public_rooms (store w)) ->
                            ~ code_matches (roomCode (ui w)) r).
  { intros r [<- | []]; vm_compute; discriminate. }
  destruct (joinRoom_unknown_code_not_found
              (Scenario.served "" 200) (Scenario.served "" 201) (Scenario.served "p-2" 205)
              w Hname Hcode Hnone)
    as (Hstore & Hout & _ & Hui & _).
  exact (conj Hstore (conj (Hui eq_refl) Hout)).
Defined.

(** *** Upper-casing the code *)

Lemma upperChar_idempotent (c : ascii) : JS.upperChar (JS.upperChar c) = JS.upperChar c.
Proof. destruct c as [[] [] [] [] [] [] [] []]; reflexivity. Qed.

Lemma upperChar_isWhiteSpace (c : ascii) :
  JS.isWhiteSpace (JS.upperChar c) = JS.isWhiteSpace c.
Proof. destruct c as [[] [] [] [] [] [] [] []]; reflexivity. Qed.

Lemma toUpperCase_idempotent (s : string) :
  JS.toUpperCase (JS.toUpperCase s) = JS.toUpperCase s.
Proof.
  induction s as [|c s IH]; simpl; [reflexivity|].
  rewrite upperChar_idempotent, IH; reflexivity.
Qed.

Lemma trimStart_toUpperCase (s : string) :
  JS.trimStart (JS.toUpperCase s) = JS.toUpperCase (JS.trimStart s).
Proof.
  induction s as [|c s IH]; simpl; [reflexivity|].
  rewrite upperChar_isWhiteSpace.
  destruct (JS.isWhiteSpace c); [exact IH | reflexivity].
Qed.

Lemma trimEnd_toUpperCase (s : string) :
  JS.trimEnd (JS.toUpperCase s) = JS.toUpperCase (JS.trimEnd s).
Proof.
  induction s as [|c s IH]; simpl; [reflexivity|].
  rewrite IH, upperChar_isWhiteSpace.
  destruct (JS.trimEnd s); simpl; [|reflexivity].
  destruct (JS.isWhiteSpace c); reflexivity.
Qed.

Lemma trim_toUpperCase (s : string) :
  JS.trim (JS.toUpperCase s) = JS.toUpperCase (JS.trim s).
Proof. unfold JS.trim. rewrite trimStart_toUpperCase. apply trimEnd_toUpperCase. Qed.

Lemma truthy_toUpperCase (s : string) : JS.truthy (JS.toUpperCase s) = JS.truthy s.
Proof. destruct s; reflexivity. Qed.

(** The code cell is written by [onChangeRoomCode] only, which upper-cases:
    for such a code the comparison of the lookup is plain equality. *)
Lemma code_matches_typed (value : string) (r : Room.t) :
  code_matches (JS.toUpperCase value) r <-> Room.code r = JS.toUpperCase value.
Proof. unfold code_matches. rewrite toUpperCase_idempotent. reflexivity. Qed.

(** A code that equals no room's code even when case is ignored is not
    matched by the lookup. *)
Lemma code_matches_ignoring_case (code : string) (r : Room.t) :
  code_matches code r -> JS.toUpperCase (Room.code r) = JS.toUpperCase code.
Proof. unfold code_matches. intros ->. apply toUpperCase_idempotent. Qed.

(** C8.  Joining with a code and joining with its upper-case form are the
    same action: the lookup is sent the same code, and from the same store,
    state and store responses the two runs end with the same store, the same
    toasts and the same client state (which keeps the code as typed in its
    [roomCode] cell). *)
Theorem joinRoom_code_case_insensitive
    (c_room c_count c_player : Call) (db : Store) (st : Lobby) (shown : list Output)
    (code : string) :
  let start c := {| store := db; ui := with_roomCode c st; out := shown |} in
  let typed := run (joinRoom c_room c_count c_player) (start code) in
  let upper := run (joinRoom c_room c_count c_player) (start (JS.toUpperCase code)) in
  select_room_by_code c_room (JS.toUpperCase (JS.toUpperCase code)) db
    = select_room_by_code c_room (JS.toUpperCase code) db /\
  store upper = store typed /\
  out upper = out typed /\
  ui upper = with_roomCode (JS.toUpperCase code) (ui typed).
Proof.
  intros start typed upper.
  split; [rewrite toUpperCase_idempotent; reflexivity|].
  subst typed upper start. unfold joinRoom. act_unfold.
  rewrite trim_toUpperCase, truthy_toUpperCase, toUpperCase_idempotent.
  destruct (JS.truthy (JS.trim (playerName st))); simpl; [|auto].
  destruct (JS.truthy (JS.trim code)); simpl; [|auto].
  destruct (select_room_by_code c_room (JS.toUpperCase code) db) as [[roomData | e] db1];
    simpl; [|auto].
  destruct (select_players c_count (Room.id roomData) db1) as [[existing | e] db2];
    simpl; [|auto].
  destruct (Room.max_players roomData <=? Z.of_nat (length existing))%Z; simpl; [auto|].
  destruct (insert_player c_player (Room.id roomData) (playerName st) (Some false) db2)
    as [[playerData | e] db3]; simpl; auto.
Qed.

(** ** Leaving *)

Lemma left_room_Landing (st : Lobby) : Landing (left_room st) /\ roomCode (left_room st) = "".
Proof. repeat split. Qed.

(** What a leave action of a client that holds a player and a room does:
    the store after the delete of the player row and, for a host, the delete
    of the room row, each with whatever its call achieves; the client state
    reset; one toast. *)
Lemma leaveRoom_run (c_player c_room : Call) (w : World) (p : Player.t) (r : Room.t) :
  currentPlayer (ui w) = Some p ->
  currentRoom (ui w) = Some r ->
  run (leaveRoom c_player c_room) w =
  {| store :=
       (let db1 := snd (delete_player c_player (Player.id p) (store w)) in
        if Player.is_host p then snd (delete_room c_room (Room.id r) db1) else db1);
     ui := left_room (ui w);
     out := out w ++ [Toast "Left room" "You have left the room." default] |}.
Proof.
  intros Hp Hr. unfold leaveRoom. act_unfold. rewrite Hp, Hr. act_unfold.
  destruct (delete_player c_player (Player.id p) (store w)) as [res1 db1]. simpl.
  destruct (Player.is_host p); simpl; [|reflexivity].
  destruct (delete_room c_room (Room.id r) db1) as [res2 db2]. reflexivity.
Qed.

Lemma delete_player_rooms (c : Call) (pid : string) (db : Store) :
  public_rooms (snd (delete_player c pid db)) = public_rooms db.
Proof. unfold delete_player. destruct (transport_ok c); reflexivity. Qed.

Lemma delete_player_players (c : Call) (pid : string) (db : Store) :
  public_players (snd (delete_player c pid db)) =
  if transport_ok c
  then filter (fun q => negb (has_player_id pid q)) (public_players db)
  else public_players db.
Proof. unfold delete_player. destruct (transport_ok c); reflexivity. Qed.

Lemma delete_player_references_ok (c : Call) (pid : string) (db : Store) :
  references_ok db -> references_ok (snd (delete_player c pid db)).
Proof.
  intros Hok q Hq. rewrite delete_player_rooms. rewrite delete_player_players in Hq.
  destruct (transport_ok c); [apply filter_In in Hq as [Hq _]|]; auto.
Qed.

(** Once the store has carried out the delete of a room, no row of either
    table belongs to that room. *)
Lemma delete_room_clears (c : Call) (rid : string) (db : Store) :
  transport_ok c = true ->
  references_ok db ->
  let db' := snd (delete_room c rid db) in
  (forall r, In r (public_rooms db') -> Room.id r <> rid) /\
  (forall q, In q (public_players db') -> Player.room_id q <> rid).
Proof.
  intros Hc Hok. unfold delete_room. rewrite Hc. simpl.
  destruct (existsb (has_room_id rid) (public_rooms db)) eqn:Hex; simpl.
  - split.
    + intros r Hr. apply filter_In in Hr as [_ Hr].
      unfold has_room_id in Hr. apply negb_true_iff, String.eqb_neq in Hr. exact Hr.
    + intros q Hq. apply filter_In in Hq as [_ Hq].
      unfold in_room in Hq. apply negb_true_iff, String.eqb_neq in Hq. exact Hq.
  - assert (Hnone : forall r, In r (public_rooms db) -> Room.id r <> rid).
    { intros r Hr Heq.
      assert (Hyes : existsb (has_room_id rid) (public_rooms db) = true).
      { apply existsb_exists. exists r. split; [exact Hr|].
        unfold has_room_id. apply String.eqb_eq, Heq. }
      congruence. }
    split; [exact Hnone|].
    intros q Hq Heq. specialize (Hok q Hq). rewrite Heq in Hok. congruence.
Qed.

(** C3, as amended.  A leave action by a host whose delete of the room row
    is carried out by the store leaves no Room row with the room's id and no
    Player row of that room: the cascade of the foreign key takes them all,
    the host's own included (the store satisfying the foreign key of
    [players.room_id], as every store reached through the store calls does),
    and with the delete of the player row carried out no row with the
    player's id is left either; the leaving client is back at Landing with
    an empty code. *)
Theorem leaveRoom_host_clears_room
    (c_player c_room : Call) (w : World) (p : Player.t) (r : Room.t) :
  currentPlayer (ui w) = Some p ->
  currentRoom (ui w) = Some r ->
  Player.is_host p = true ->
  transport_ok c_room = true ->
  references_ok (store w) ->
  let w' := run (leaveRoom c_player c_room) w in
  (forall r', In r' (public_rooms (store w')) -> Room.id r' <> Room.id r) /\
  (forall q, In q (public_players (store w')) -> Player.room_id q <> Room.id r) /\
  (transport_ok c_player = true ->
   forall q, In q (public_players (store w')) -> Player.id q <> Player.id p) /\
  Landing (ui w') /\ roomCode (ui w') = "".
Proof.
  intros Hp Hr Hhost Hc Hok w'. subst w'.
  rewrite (leaveRoom_run _ _ _ _ _ Hp Hr). simpl. rewrite Hhost.
  pose proof (delete_room_clears c_room (Room.id r) _ Hc
                (delete_player_references_ok c_player (Player.id p) _ Hok)) as [Hrooms Hplayers].
  split; [exact Hrooms|]. split; [exact Hplayers|].
  split; [|repeat split].
  intros Hcp q Hq.
  assert (Hq1 : In q (public_players (snd (delete_player c_player (Player.id p) (store w))))).
  { revert Hq. unfold delete_room. rewrite Hc. simpl.
    destruct (existsb _ _); simpl; [|tauto].
    intros Hq. apply filter_In in Hq as [Hq _]. exact Hq. }
  rewrite delete_player_players, Hcp in Hq1.
  apply filter_In in Hq1 as [_ Hq1].
  unfold has_player_id in Hq1. apply negb_true_iff, String.eqb_neq in Hq1. exact Hq1.
Qed.

Lemma leaveRoom_host_clears_room_witness :
  let w := world Scenario.joined
             (Scenario.in_room_as Scenario.the_room Scenario.alice
                [Scenario.alice; Scenario.bob]) in
  let w' := run (leaveRoom (Scenario.served "" 500) (Scenario.served "" 501)) w in
  (forall r', In r' (public_rooms (store w')) -> Room.id r' <> "r-1") /\
  (forall q, In q (public_players (store w')) -> Player.room_id q <> "r-1") /\
  Landing (ui w').
Proof.
  intros w w'.
  assert (Hok : references_ok (store w)).
  { intros q [<- | [<- | []]]; reflexivity. }
  destruct (leaveRoom_host_clears_room
              (Scenario.served "" 500) (Scenario.served "" 501) w
              Scenario.alice Scenario.the_room eq_refl eq_refl eq_refl eq_refl Hok)
    as (Hrooms & Hplayers & _ & Hlanding & _).
  exact (conj Hrooms (conj Hplayers Hlanding)).
Defined.

(** C3, as stated, fails.  [leaveRoom] does not look at what its deletes
    resolve to: when the delete of the room row does not reach the store
    (here with the host's player row deleted), the room row and the other
    player's row stay, on a store that satisfies every constraint, while the
    leaving client goes to Landing all the same. *)
Lemma leaveRoom_host_room_delete_dropped :
  ~ (forall (c_player c_room : Call) (w : World) (p : Player.t) (r : Room.t),
        currentPlayer (ui w) = Some p ->
        currentRoom (ui w) = Some r ->
        Player.is_host p = true ->
        references_ok (store w) ->
        let w' := run (leaveRoom c_player c_room) w in
        (forall r', In r' (public_rooms (store w')) -> Room.id r' <> Room.id r) /\
        (forall q, In q (public_players (store w')) -> Player.room_id q <> Room.id r) /\
        Landing (ui w')).
Proof.
  intros claim.
  assert (Hok : references_ok Scenario.joined).
  { intros q [<- | [<- | []]]; reflexivity. }
  destruct (claim (Scenario.served "" 500) Scenario.dropped
              (world Scenario.joined
                 (Scenario.in_room_as Scenario.the_room Scenario.alice
                    [Scenario.alice; Scenario.bob]))
              Scenario.alice Scenario.the_room eq_refl eq_refl eq_refl Hok)
    as (Hrooms & _).
  apply (Hrooms Scenario.the_room); [left; reflexivity | reflexivity].
Qed.

(** [leaveRoom] awaits its deletes without reading what they resolve to: a
    delete that does not reach the store changes nothing there, and the
    client leaves all the same. *)
Lemma leaveRoom_deletes_dropped
    (c_player c_room : Call) (w : World) (p : Player.t) (r : Room.t) :
  currentPlayer (ui w) = Some p ->
  currentRoom (ui w) = Some r ->
  transport_ok c_player = false ->
  transport_ok c_room = false ->
  let w' := run (leaveRoom c_player c_room) w in
  store w' = store w /\ Landing (ui w').
Proof.
  intros Hp Hr Hcp Hcr w'. subst w'.
  rewrite (leaveRoom_run _ _ _ _ _ Hp Hr). simpl.
  unfold delete_player, delete_room. rewrite Hcp, Hcr. simpl.
  destruct (Player.is_host p); repeat split.
Qed.

(** C5.  A leave action by a player who is not the host touches no row but
    that player's: the rooms table is as it was and so is every Player row
    with another id, in the same order; the player's own row is gone as soon
    as the store carries out the delete; the leaving client is back at
    Landing with an empty code. *)
Theorem leaveRoom_guest_removes_only_own_row
    (c_player c_room : Call) (w : World) (p : Player.t) (r : Room.t) :
  currentPlayer (ui w) = Some p ->
  currentRoom (ui w) = Some r ->
  Player.is_host p = false ->
  let w' := run (leaveRoom c_player c_room) w in
  let others := filter (fun q => negb (has_player_id (Player.id p) q)) in
  public_rooms (store w') = public_rooms (store w) /\
  others (public_players (store w')) = others (public_players (store w)) /\
  (forall q, In q (public_players (store w')) -> In q (public_players (store w))) /\
  (transport_ok c_player = true ->
   public_players (store w') = others (public_players (store w))) /\
  Landing (ui w') /\ roomCode (ui w') = "".
Proof.
  intros Hp Hr Hguest w' others. subst w'.
  rewrite (leaveRoom_run _ _ _ _ _ Hp Hr). simpl. rewrite Hguest.
  rewrite delete_player_rooms, delete_player_players.
  split; [reflexivity|].
  destruct (transport_ok c_player); subst others; simpl.
  - split.
    { induction (public_players (store w)) as [|q l IH]; simpl; [reflexivity|].
      destruct (negb (has_player_id (Player.id p) q)) eqn:Hq; simpl; rewrite ?Hq, IH; reflexivity. }
    split; [intros q Hq; apply filter_In in Hq as [Hq _]; exact Hq|].
    split; [reflexivity | repeat split].
  - split; [reflexivity|]. split; [auto|]. split; [discriminate | repeat split].
Qed.

Lemma leaveRoom_guest_removes_only_own_row_witness :
  let w := world Scenario.joined
             (Scenario.in_room_as Scenario.the_room Scenario.bob
                [Scenario.alice; Scenario.bob]) in
  let w' := run (leaveRoom (Scenario.served "" 500) (Scenario.served "" 501)) w in
  public_rooms (store w') = [Scenario.the_room] /\
  public_players (store w') = [Scenario.alice] /\
  Landing (ui w').
Proof.
  intros w w'.
  destruct (leaveRoom_guest_removes_only_own_row
              (Scenario.served "" 500) (Scenario.served "" 501) w
              Scenario.bob Scenario.the_room eq_refl eq_refl eq_refl)
    as (Hrooms & _ & _ & Hgone & Hlanding & _).
  exact (conj Hrooms (conj (Hgone eq_refl) Hlanding)).
Defined.

(** ** Starting the game *)

(** C6.  Start game navigates exactly when the client holds a room, its
    player is the host and the local roster has at least two players.  For
    the host of a room with fewer than two players it does not navigate: it
    shows the not-enough-players toast, and the Start Game button, disabled,
    carries the number of players still needed, two minus the roster size.
    Without a room, or for a player who is not the host, it does nothing. *)
Theorem startGame_needs_host_and_two_players (w : World) :
  let w' := run startGame w in
  let n := length (players (ui w)) in
  store w' = store w /\ ui w' = ui w /\
  (out w' = out w ++ [Navigate "/game"] <->
   currentRoom (ui w) <> None /\ is_host_opt (currentPlayer (ui w)) = true /\ 2 <= n) /\
  (currentRoom (ui w) <> None -> is_host_opt (currentPlayer (ui w)) = true -> n < 2 ->
   out w' = out w ++ [Toast "Not enough players"
                        "At least 2 players are required to start the game." destructive] /\
   startGameButton (ui w) =
     Some {| disabled := true; need_more := Some (2 - Z.of_nat n)%Z |}) /\
  (currentRoom (ui w) = None \/ is_host_opt (currentPlayer (ui w)) = false -> w' = w).
Proof.
  intros w' n.
  set (emitted :=
         if is_null (currentRoom (ui w)) || negb (is_host_opt (currentPlayer (ui w)))
         then []
         else if n <? 2
              then [Toast "Not enough players"
                      "At least 2 players are required to start the game." destructive]
              else [Navigate "/game"]).
  assert (Hrun : w' = {| store := store w; ui := ui w; out := out w ++ emitted |}).
  { subst w' emitted n. unfold startGame. act_unfold.
    destruct (is_null (currentRoom (ui w)) || negb (is_host_opt (currentPlayer (ui w))));
      simpl; [rewrite app_nil_r; destruct w; reflexivity|].
    destruct (length (players (ui w)) <? 2); reflexivity. }
  assert (Hout : forall o, out w ++ emitted = out w ++ o -> emitted = o)
    by (intros o; apply app_inv_head).
  rewrite Hrun; simpl. clear Hrun w'.
  unfold startGameButton. fold n. subst emitted.
  destruct (currentRoom (ui w)) as [r|]; simpl in *.
  2:{ split; [reflexivity|]. split; [reflexivity|]. split; [|split].
      - split; [intros H; apply Hout in H; discriminate | intros (H & _); congruence].
      - congruence.
      - intros _. rewrite app_nil_r. destruct w; reflexivity. }
  destruct (is_host_opt (currentPlayer (ui w))); simpl in *.
  2:{ split; [reflexivity|]. split; [reflexivity|]. split; [|split].
      - split; [intros H; apply Hout in H; discriminate | intros (_ & H & _); discriminate].
      - discriminate.
      - intros _. rewrite app_nil_r. destruct w; reflexivity. }
  split; [reflexivity|]. split; [reflexivity|].
  destruct (Nat.ltb_spec n 2) as [Hlt | Hge]; simpl.
  - split; [|split].
    + split; [intros H; apply Hout in H; discriminate | intros (_ & _ & H); lia].
    + intros _ _ _. split; reflexivity.
    + intros [H | H]; discriminate.
  - split; [|split].
    + split; [intros _; repeat split; [discriminate | exact Hge] | reflexivity].
    + intros _ _ H; lia.
    + intros [H | H]; discriminate.
Qed.

Lemma startGame_needs_host_and_two_players_witness :
  let w := world Scenario.hosted
             (Scenario.in_room_as Scenario.the_room Scenario.alice [Scenario.alice]) in
  out (run startGame w)
    = [Toast "Not enough players" "At least 2 players are required to start the game."
         destructive] /\
  startGameButton (ui w) = Some {| disabled := true; need_more := Some 1%Z |}.
Proof.
  intros w.
  assert (Hroom : currentRoom (ui w) <> None) by (simpl; discriminate).
  assert (Hone : length (players (ui w)) < 2) by (simpl; lia).
  exact (proj1 (proj2 (proj2 (proj2 (startGame_needs_host_and_two_players w))))
           Hroom eq_refl Hone).
Defined.

(** ** The roster *)

Section Roster.

Lemma insert_by_joined_at_perm (p : Player.t) (l : list Player.t) :
  Permutation (insert_by_joined_at p l) (p :: l).
Proof.
  induction l as [|q l IH]; simpl; [reflexivity|].
  destruct (Player.joined_at p <=? Player.joined_at q)%Z; [reflexivity|].
  rewrite IH. apply perm_swap.
Qed.

Lemma insert_by_joined_at_sorted (p : Player.t) (l : list Player.t) :
  ascending_by_joined_at l -> ascending_by_joined_at (insert_by_joined_at p l).
Proof.
  unfold ascending_by_joined_at.
  induction l as [|q l IH]; simpl; intros Hs.
  - repeat constructor.
  - destruct (Z.leb_spec (Player.joined_at p) (Player.joined_at q)) as [Hle | Hgt].
    + constructor; [exact Hs | constructor; exact Hle].
    + apply Sorted_inv in Hs as [Hs Hhd].
      constructor; [apply IH, Hs|].
      destruct l as [|q' l]; simpl.
      * constructor. lia.
      * destruct (Player.joined_at p <=? Player.joined_at q')%Z; constructor.
        -- lia.
        -- apply HdRel_inv in Hhd. exact Hhd.
Qed.

Lemma order_by_joined_at_perm (l : list Player.t) :
  Permutation (order_by_joined_at l) l.
Proof.
  induction l as [|p l IH]; simpl; [reflexivity|].
  rewrite insert_by_joined_at_perm. constructor. exact IH.
Qed.

Lemma order_by_joined_at_sorted (l : list Player.t) :
  ascending_by_joined_at (order_by_joined_at l).
Proof.
  induction l as [|p l IH]; simpl; [constructor|].
  apply insert_by_joined_at_sorted, IH.
Qed.

End Roster.

Ltac break_calls :=
  repeat (simpl;
          match goal with
          | |- context [JS.truthy ?s] => destruct (JS.truthy s)
          | |- context [insert_room ?c ?a ?b ?m ?db] =>
              destruct (insert_room c a b m db) as [[?|?] ?]
          | |- context [insert_player ?c ?a ?b ?h ?db] =>
              destruct (insert_player c a b h db) as [[?|?] ?]
          | |- context [select_room_by_code ?c ?a ?db] =>
              destruct (select_room_by_code c a db) as [[?|?] ?]
          | |- context [select_players ?c ?a ?db] =>
              destruct (select_players c a db) as [[?|?] ?]
          | |- context [delete_player ?c ?a ?db] =>
              destruct (delete_player c a db) as [? ?]
          | |- context [delete_room ?c ?a ?db] =>
              destruct (delete_room c a db) as [? ?]
          | |- context [Z.leb ?a ?b] => destruct (Z.leb a b)
          | |- context [Nat.ltb ?a ?b] => destruct (Nat.ltb a b)
          | |- context [Player.is_host ?p] => destruct (Player.is_host p)
          | |- context [is_host_opt ?p] => destruct (is_host_opt p)
          | |- context [is_null ?o] => destruct (is_null o)
          end).






Example roster_of_three :
  order_by_joined_at [Scenario.alice; Scenario.bob; Scenario.carol]
    = [Scenario.alice; Scenario.carol; Scenario.bob].
Proof. reflexivity. Qed.

(** ** Capacity of a room *)

(** The rooms table after a host action: as before, or with the one row of
    the insert issued by [hostRoom]. *)
Lemma hostRoom_rooms (random : list nat) (c_room c_player : Call) (w : World) :
  let w' := run (hostRoom random c_room c_player) w in
  public_rooms (store w') = public_rooms (store w) \/
  public_rooms (store w') =
    public_rooms (store w) ++
      [Room.mk (gen_random_uuid c_room) (generateRoomCode random) (playerName (ui w))
         5%Z (now c_room) (now c_room)].
Proof.
  intros w'. subst w'. unfold hostRoom. act_unfold.
  destruct (JS.truthy (JS.trim (playerName (ui w)))); simpl; [|left; reflexivity].
  destruct (insert_room c_room (generateRoomCode random) (playerName (ui w)) (Some 5%Z)
              (store w)) as [[roomData | e] db1] eqn:Hroom; simpl.
  - apply insert_room_Data in Hroom as (Hrow & Hrooms & _).
    right.
    destruct (insert_player c_player (Room.id roomData) (playerName (ui w)) (Some true) db1)
      as [[playerData | e] db2] eqn:Hplayer; simpl.
    + apply insert_player_Data in Hplayer as (_ & Hsame & _).
      rewrite Hsame, Hrooms, Hrow. reflexivity.
    + apply insert_player_Error in Hplayer. subst db2.
      rewrite Hrooms, Hrow. reflexivity.
  - apply insert_room_Error in Hroom. subst db1. left; reflexivity.
Qed.

(** C9.  A room row inserted without [max_players] gets the storage default
    4, while every room row that a host action of the client adds to the
    store has [max_players = 5], the value [hostRoom] passes to the insert. *)
Theorem max_players_default_4_hosted_5 :
  default_max_players = 4%Z /\
  (forall (c : Call) (code host_name : string) (db db' : Store) (r : Room.t),
      insert_room c code host_name None db = (Data r, db') ->
      Room.max_players r = 4%Z) /\
  (forall (random : list nat) (c_room c_player : Call) (w : World) (r : Room.t),
      In r (public_rooms (store (run (hostRoom random c_room c_player) w))) ->
      ~ In r (public_rooms (store w)) ->
      Room.max_players r = 5%Z).
Proof.
  split; [reflexivity|]. split.
  - intros c code host_name db db' r H.
    apply insert_room_Data in H as (-> & _). reflexivity.
  - intros random c_room c_player w r Hin Hnew.
    destruct (hostRoom_rooms random c_room c_player w) as [H | H];
      rewrite H in Hin; [contradiction|].
    apply in_app_or in Hin as [Hin | [<- | []]]; [contradiction | reflexivity].
Qed.

Lemma max_players_default_4_hosted_5_witness :
  Room.max_players Scenario.the_room = 5%Z.
Proof.
  apply (proj2 (proj2 max_players_default_4_hosted_5)
           Scenario.draw (Scenario.served "r-1" 100) (Scenario.served "p-1" 101)
           (world emptyStore (Scenario.at_landing "Alice" ""))).
  - left; reflexivity.
  - simpl; tauto.
Defined.

(** ** The foreign key is kept by every store call *)

Section Integrity.

Lemma existsb_app_l {A : Type} (f : A -> bool) (l l' : list A) :
  existsb f l = true -> existsb f (l ++ l') = true.
Proof. intros H. rewrite existsb_app, H. reflexivity. Qed.

Lemma insert_room_references_ok (c : Call) (code host_name : string) (mp : option Z)
    (db : Store) :
  references_ok db -> references_ok (snd (insert_room c code host_name mp db)).
Proof.
  intros Hok. unfold insert_room.
  repeat match goal with |- context [if ?b then _ else _] => destruct b end; simpl; auto.
  intros p Hp; simpl in *. apply existsb_app_l, Hok, Hp.
Qed.

Lemma insert_player_references_ok (c : Call) (rid name : string) (h : option bool)
    (db : Store) :
  references_ok db -> references_ok (snd (insert_player c rid name h db)).
Proof.
  intros Hok. unfold insert_player.
  destruct (negb (transport_ok c)); simpl; auto.
  destruct (existsb (has_player_id (gen_random_uuid c)) (public_players db)); simpl; auto.
  destruct (existsb (has_room_id rid) (public_rooms db)) eqn:Hroom; simpl; auto.
  intros p Hp; simpl in *.
  apply in_app_or in Hp as [Hp | [<- | []]]; [apply Hok, Hp | exact Hroom].
Qed.

Lemma delete_room_references_ok (c : Call) (rid : string) (db : Store) :
  references_ok db -> references_ok (snd (delete_room c rid db)).
Proof.
  intros Hok. unfold delete_room.
  destruct (negb (transport_ok c)); simpl; auto.
  destruct (existsb (has_room_id rid) (public_rooms db)); simpl; auto.
  intros p Hp; simpl in *.
  apply filter_In in Hp as [Hp Hother].
  specialize (Hok p Hp). apply existsb_exists in Hok as (r & Hr & Hid).
  apply existsb_exists. exists r. split; [|exact Hid].
  apply filter_In. split; [exact Hr|].
  unfold has_room_id, in_room in *.
  apply String.eqb_eq in Hid. rewrite Hid. exact Hother.
Qed.

End Integrity.

(** ** The scenario, run *)

Section ScenarioRuns.

Import Scenario.

Example alice_hosts :
  run (hostRoom draw (served "r-1" 100) (served "p-1" 101))
      (world emptyStore (at_landing "Alice" ""))
  = {| store := hosted;
       ui := {| currentView := room; playerName := "Alice"; roomCode := "";
                currentRoom := Some the_room; currentPlayer := Some alice;
                players := []; loading := false |};
       out := [Toast "Room created!" "Room code: ABC123" default] |}.
Proof. reflexivity. Qed.

Example bob_joins_in_lower_case :
  run (joinRoom (served "" 200) (served "" 201) (served "p-2" 205))
      (world hosted (at_landing "Bob" "abc123"))
  = {| store := joined;
       ui := {| currentView := room; playerName := "Bob"; roomCode := "abc123";
                currentRoom := Some the_room; currentPlayer := Some bob;
                players := []; loading := false |};
       out := [Toast "Joined room!" "Joined room: ABC123" default] |}.
Proof. reflexivity. Qed.

Example alice_starts_with_two :
  out (run startGame (world joined (in_room_as the_room alice [alice; bob])))
  = [Navigate "/game"].
Proof. reflexivity. Qed.

Example alice_leaves :
  store (run (leaveRoom (served "" 500) (served "" 501))
           (world joined (in_room_as the_room alice [alice; bob])))
  = emptyStore.
Proof. reflexivity. Qed.

Example third_join_of_full_room :
  run (joinRoom (served "" 400) (served "" 401) (served "p-6" 402))
      (world full (at_landing "Fay" "XY12"))
  = {| store := full; ui := at_landing "Fay" "XY12";
       out := [Toast "Room full" "This room is already full." destructive] |}.
Proof. reflexivity. Qed.

(** The room delete of a leaving host is lost: the client leaves, the room
    and the other player's row stay. *)
Example alice_leaves_room_delete_dropped :
  let w' := run (leaveRoom (served "" 500) dropped)
              (world joined (in_room_as the_room alice [alice; bob])) in
  store w' = {| public_rooms := [the_room]; public_players := [bob] |} /\
  currentView (ui w') = landing.
Proof. split; reflexivity. Qed.

End ScenarioRuns.

(** ** The foreign key is kept by every handler *)

Section Reachable.

Lemma references_ok_result {A : Type} (result : Response A * Store) (db : Store) :
  (references_ok db -> references_ok (snd result)) ->
  forall res db', result = (res, db') -> references_ok db -> references_ok db'.
Proof. intros Hkeep res db' ->. exact Hkeep. Qed.

Lemma select_room_by_code_references_ok (c : Call) (code : string) (db : Store) :
  references_ok db -> references_ok (snd (select_room_by_code c code db)).
Proof. rewrite select_room_by_code_store. auto. Qed.

Lemma select_players_references_ok (c : Call) (rid : string) (db : Store) :
  references_ok db -> references_ok (snd (select_players c rid db)).
Proof. unfold select_players. destruct (transport_ok c); auto. Qed.

Lemma select_players_ordered_references_ok (c : Call) (rid : string) (db : Store) :
  references_ok db -> references_ok (snd (select_players_ordered c rid db)).
Proof. unfold select_players_ordered. destruct (transport_ok c); auto. Qed.

Ltac keep_call call kept :=
  let H := fresh "Hcall" in
  destruct call as [[?|?] ?] eqn:H;
  (apply (references_ok_result _ _ kept) in H; [|assumption]).

Ltac keep_references :=
  repeat (simpl;
          match goal with
          | |- context [JS.truthy ?s] => destruct (JS.truthy s)
          | |- context [insert_room ?c ?a ?b ?m ?db] =>
              keep_call (insert_room c a b m db) (insert_room_references_ok c a b m db)
          | |- context [insert_player ?c ?a ?b ?h ?db] =>
              keep_call (insert_player c a b h db) (insert_player_references_ok c a b h db)
          | |- context [select_room_by_code ?c ?a ?db] =>
              keep_call (select_room_by_code c a db)
                (select_room_by_code_references_ok c a db)
          | |- context [select_players ?c ?a ?db] =>
              keep_call (select_players c a db) (select_players_references_ok c a db)
          | |- context [select_players_ordered ?c ?a ?db] =>
              keep_call (select_players_ordered c a db)
                (select_players_ordered_references_ok c a db)
          | |- context [delete_player ?c ?a ?db] =>
              keep_call (delete_player c a db) (delete_player_references_ok c a db)
          | |- context [delete_room ?c ?a ?db] =>
              keep_call (delete_room c a db) (delete_room_references_ok c a db)
          | |- context [Z.leb ?a ?b] => destruct (Z.leb a b)
          | |- context [Nat.ltb ?a ?b] => destruct (Nat.ltb a b)
          | |- context [Player.is_host ?p] => destruct (Player.is_host p)
          | |- context [is_host_opt ?p] => destruct (is_host_opt p)
          | |- context [is_null ?o] => destruct (is_null o)
          end).

(** Every handler keeps the foreign key, and so does any run of the lobby
    in which the writes of the other clients do. *)
Lemma step_references_ok (e : Event) (w : World) :
  keeps_references e ->
  references_ok (store w) -> references_ok (store (step e w)).
Proof.
  intros He Hok. destruct e; simpl; try assumption.
  - unfold hostRoom. act_unfold. keep_references; simpl; assumption.
  - unfold joinRoom. act_unfold. keep_references; simpl; assumption.
  - unfold leaveRoom. act_unfold.
    destruct (currentPlayer (ui w)) as [p|]; [|assumption].
    destruct (currentRoom (ui w)) as [r|]; [|assumption].
    act_unfold. keep_references; simpl; assumption.
  - unfold startGame. act_unfold. keep_references; simpl; assumption.
  - unfold fetchPlayers. act_unfold.
    destruct (currentRoom (ui w)) as [r|]; [|assumption].
    act_unfold. keep_references; simpl; assumption.
  - apply He, Hok.
Qed.

Lemma steps_references_ok (es : list Event) (w : World) :
  Forall keeps_references es ->
  references_ok (store w) -> references_ok (store (steps es w)).
Proof.
  revert w; induction es as [|e es IH]; intros w Hes Hok; simpl; [exact Hok|].
  apply Forall_cons_iff in Hes as [He Hes].
  apply IH; [exact Hes | apply step_references_ok; assumption].
Qed.

Lemma emptyStore_references_ok : references_ok emptyStore.
Proof. intros p []. Qed.

End Reachable.

(** * Further properties of the handlers *)

(** ** Validation *)

(** X1.  A blank player name (empty or white space only) stops [hostRoom]
    and [joinRoom] before any store call, and so does a blank room code for
    [joinRoom]: the world is as it was but for the one toast that names the
    missing input, whatever the store would have answered. *)
Theorem blank_input_rejected_before_any_store_call :
  (forall (random : list nat) (c_room c_player : Call) (w : World),
      JS.trim (playerName (ui w)) = "" ->
      run (hostRoom random c_room c_player) w =
      {| store := store w; ui := ui w;
         out := out w ++ [Toast "Player name required"
                            "Please enter your name to host a room." destructive] |}) /\
  (forall (c_room c_count c_player : Call) (w : World),
      JS.trim (playerName (ui w)) = "" ->
      run (joinRoom c_room c_count c_player) w =
      {| store := store w; ui := ui w;
         out := out w ++ [Toast "Player name required"
                            "Please enter your name to join a room." destructive] |}) /\
  (forall (c_room c_count c_player : Call) (w : World),
      JS.trim (playerName (ui w)) <> "" ->
      JS.trim (roomCode (ui w)) = "" ->
      run (joinRoom c_room c_count c_player) w =
      {| store := store w; ui := ui w;
         out := out w ++ [Toast "Room code required"
                            "Please enter a room code to join." destructive] |}).
Proof.
  split; [|split].
  - intros random c_room c_player w Hname.
    unfold hostRoom. act_unfold. rewrite Hname. reflexivity.
  - intros c_room c_count c_player w Hname.
    unfold joinRoom. act_unfold. rewrite Hname. reflexivity.
  - intros c_room c_count c_player w Hname Hcode.
    unfold joinRoom. act_unfold.
    rewrite (truthy_trim_nonempty _ Hname), Hcode. reflexivity.
Qed.

Lemma blank_input_rejected_before_any_store_call_witness :
  let w := world Scenario.hosted (Scenario.at_landing "   " "ABC123") in
  run (joinRoom (Scenario.served "" 200) (Scenario.served "" 201)
         (Scenario.served "p-2" 205)) w =
  {| store := Scenario.hosted; ui := ui w;
     out := [Toast "Player name required" "Please enter your name to join a room."
               destructive] |}.
Proof.
  intros w.
  exact (proj1 (proj2 blank_input_rejected_before_any_store_call)
           (Scenario.served "" 200) (Scenario.served "" 201) (Scenario.served "p-2" 205)
           w eq_refl).
Defined.

(** ** Hosting, when the store refuses *)

Lemma existsb_has_code (code : string) (rooms : list Room.t) (r : Room.t) :
  In r rooms -> Room.code r = code -> existsb (has_code code) rooms = true.
Proof.
  intros Hin Hcode. apply existsb_exists. exists r. split; [exact Hin|].
  unfold has_code. apply String.eqb_eq, Hcode.
Qed.

(** X2.  When a room already has the code that was drawn, the host action
    creates nothing and is not tried again with another code: the store is
    as it was, the client stays where it was with [loading] back to [false],
    and the failure is logged and shown as the generic error toast. *)
Theorem hostRoom_code_taken
    (random : list nat) (c_room c_player : Call) (w : World) (taken : Room.t) :
  JS.trim (playerName (ui w)) <> "" ->
  In taken (public_rooms (store w)) ->
  Room.code taken = generateRoomCode random ->
  let w' := run (hostRoom random c_room c_player) w in
  store w' = store w /\
  ui w' = with_loading false (ui w) /\
  exists e,
    out w' = out w ++ [ConsoleError "Error creating room:" e;
                       Toast "Error" "Failed to create room. Please try again."
                         destructive].
Proof.
  intros Hname Hin Hcode w'. subst w'.
  assert (Hins : exists e, insert_room c_room (generateRoomCode random)
                             (playerName (ui w)) (Some 5%Z) (store w)
                           = (Error e, store w)).
  { unfold insert_room.
    destruct (negb (transport_ok c_room)); [eauto|].
    destruct (existsb (has_room_id (gen_random_uuid c_room)) (public_rooms (store w)));
      [eauto|].
    rewrite (existsb_has_code _ _ _ Hin Hcode). eauto. }
  destruct Hins as [e He].
  unfold hostRoom. act_unfold. rewrite (truthy_trim_nonempty _ Hname). simpl.
  rewrite He. simpl. repeat split. exists e. rewrite <- app_assoc. reflexivity.
Qed.

Lemma hostRoom_code_taken_witness :
  let w := world Scenario.hosted (Scenario.at_landing "Zoe" "") in
  let w' := run (hostRoom Scenario.draw (Scenario.served "r-9" 900)
                   (Scenario.served "p-9" 901)) w in
  store w' = Scenario.hosted /\ ui w' = ui w.
Proof.
  intros w w'.
  assert (Hname : JS.trim (playerName (ui w)) <> "") by (vm_compute; discriminate).
  destruct (hostRoom_code_taken Scenario.draw (Scenario.served "r-9" 900)
              (Scenario.served "p-9" 901) w Scenario.the_room Hname
              (or_introl eq_refl) eq_refl)
    as (Hstore & Hui & _).
  exact (conj Hstore Hui).
Defined.

(** X3.  The two inserts of [hostRoom] are not one transaction: when the
    room insert returns its row and the player insert fails, the room row
    stays in the store without any player, while the client is left where it
    was, with the generic error toast. *)
Theorem hostRoom_player_insert_fails_leaves_room
    (random : list nat) (c_room c_player : Call) (w : World)
    (roomData : Room.t) (db1 db2 : Store) (e : PostgrestError) :
  JS.trim (playerName (ui w)) <> "" ->
  insert_room c_room (generateRoomCode random) (playerName (ui w)) (Some 5%Z) (store w)
    = (Data roomData, db1) ->
  insert_player c_player (Room.id roomData) (playerName (ui w)) (Some true) db1
    = (Error e, db2) ->
  let w' := run (hostRoom random c_room c_player) w in
  public_rooms (store w') = public_rooms (store w) ++ [roomData] /\
  public_players (store w') = public_players (store w) /\
  roster_size (Room.id roomData) (store w') = roster_size (Room.id roomData) (store w) /\
  ui w' = with_loading false (ui w) /\
  out w' = out w ++ [ConsoleError "Error creating room:" e;
                     Toast "Error" "Failed to create room. Please try again."
                       destructive].
Proof.
  intros Hname Hroom Hplayer w'. subst w'.
  unfold hostRoom. act_unfold. rewrite (truthy_trim_nonempty _ Hname). simpl.
  rewrite Hroom. simpl. rewrite Hplayer. simpl.
  apply insert_player_Error in Hplayer. subst db2.
  apply insert_room_Data in Hroom as (_ & Hrooms & Hplayers & _).
  unfold roster_size. rewrite Hrooms, Hplayers, <- app_assoc. repeat split.
Qed.

Lemma hostRoom_player_insert_fails_leaves_room_witness :
  let w := world emptyStore (Scenario.at_landing "Alice" "") in
  let w' := run (hostRoom Scenario.draw (Scenario.served "r-1" 100) Scenario.dropped) w in
  public_rooms (store w') = [Scenario.the_room] /\
  public_players (store w') = [] /\
  ui w' = ui w.
Proof.
  intros w w'.
  assert (Hname : JS.trim (playerName (ui w)) <> "") by (vm_compute; discriminate).
  destruct (hostRoom_player_insert_fails_leaves_room
              Scenario.draw (Scenario.served "r-1" 100) Scenario.dropped w
              Scenario.the_room
              {| public_rooms := [Scenario.the_room]; public_players := [] |}
              {| public_rooms := [Scenario.the_room]; public_players := [] |}
              FetchFailed Hname eq_refl eq_refl)
    as (Hrooms & Hplayers & _ & Hui & _).
  exact (conj Hrooms (conj Hplayers Hui)).
Defined.

(** ** Joining, the other outcomes *)

Lemma filter_app_one {A : Type} (f : A -> bool) (l : list A) (x : A) :
  f x = true -> length (filter f (l ++ [x])) = S (length (filter f l)).
Proof.
  intros Hx. rewrite filter_app, length_app. simpl. rewrite Hx. simpl. lia.
Qed.

(** X4.  A join action whose lookup returns a room, whose roster query
    returns fewer rows than [max_players] and whose insert returns its row
    appends exactly that row, a player who is not the host, to the players
    of the room: the roster of the room in the store grows by one, the rooms
    table is untouched, and the client is in the room as that player, with
    the upper-cased code in the toast. *)
Theorem joinRoom_adds_one_guest
    (c_room c_count c_player : Call) (w : World)
    (roomData : Room.t) (existingPlayers : list Player.t) (playerData : Player.t)
    (db' : Store) :
  JS.trim (playerName (ui w)) <> "" ->
  JS.trim (roomCode (ui w)) <> "" ->
  fst (select_room_by_code c_room (JS.toUpperCase (roomCode (ui w))) (store w))
    = Data roomData ->
  fst (select_players c_count (Room.id roomData) (store w)) = Data existingPlayers ->
  (Z.of_nat (length existingPlayers) < Room.max_players roomData)%Z ->
  insert_player c_player (Room.id roomData) (playerName (ui w)) (Some false) (store w)
    = (Data playerData, db') ->
  let w' := run (joinRoom c_room c_count c_player) w in
  public_rooms (store w') = public_rooms (store w) /\
  public_players (store w') = public_players (store w) ++ [playerData] /\
  Player.is_host playerData = false /\
  Player.room_id playerData = Room.id roomData /\
  Player.name playerData = playerName (ui w) /\
  roster_size (Room.id roomData) (store w') = S (length existingPlayers) /\
  ui w' = entered roomData playerData (ui w) /\
  out w' = out w ++ [Toast "Joined room!"
                       (String.append "Joined room: " (JS.toUpperCase (roomCode (ui w))))
                       default].
Proof.
  intros Hname Hcode Hroom Hcount Hfree Hins w'.
  assert (Hw' : w' = {| store := db'; ui := entered roomData playerData (ui w);
                        out := out w ++ [Toast "Joined room!"
                                 (String.append "Joined room: "
                                    (JS.toUpperCase (roomCode (ui w)))) default] |}).
  { subst w'. unfold joinRoom. act_unfold.
    rewrite (truthy_trim_nonempty _ Hname), (truthy_trim_nonempty _ Hcode). simpl.
    destruct (select_room_by_code c_room (JS.toUpperCase (roomCode (ui w))) (store w))
      as [res db1] eqn:Hsel.
    simpl in Hroom; subst res.
    apply select_room_by_code_Data in Hsel as (-> & _). simpl.
    destruct (select_players c_count (Room.id roomData) (store w)) as [res db2] eqn:Hsel.
    simpl in Hcount; subst res.
    apply select_players_Data in Hsel as (-> & _). simpl.
    apply Z.leb_gt in Hfree. rewrite Hfree. simpl. rewrite Hins. reflexivity. }
  rewrite Hw'. simpl.
  apply insert_player_Data in Hins as (Hrow & Hrooms & Hplayers & _).
  destruct (select_players c_count (Room.id roomData) (store w)) as [res db2] eqn:Hsel.
  simpl in Hcount; subst res.
  apply select_players_Data in Hsel as (_ & Hexisting).
  assert (Hin : in_room (Room.id roomData) playerData = true).
  { rewrite Hrow. unfold in_room. simpl. apply String.eqb_refl. }
  unfold roster_size. rewrite Hrooms, Hplayers, (filter_app_one _ _ _ Hin), <- Hexisting.
  repeat split; rewrite Hrow; reflexivity.
Qed.

Lemma joinRoom_adds_one_guest_witness :
  let w := world Scenario.hosted (Scenario.at_landing "Bob" "abc123") in
  let w' := run (joinRoom (Scenario.served "" 200) (Scenario.served "" 201)
                   (Scenario.served "p-2" 205)) w in
  public_players (store w') = [Scenario.alice; Scenario.bob] /\
  roster_size "r-1" (store w') = 2.
Proof.
  intros w w'.
  assert (Hname : JS.trim (playerName (ui w)) <> "") by (vm_compute; discriminate).
  assert (Hcode : JS.trim (roomCode (ui w)) <> "") by (vm_compute; discriminate).
  destruct (joinRoom_adds_one_guest
              (Scenario.served "" 200) (Scenario.served "" 201) (Scenario.served "p-2" 205)
              w Scenario.the_room [Scenario.alice] Scenario.bob Scenario.joined
              Hname Hcode eq_refl eq_refl eq_refl eq_refl)
    as (_ & Hplayers & _ & _ & _ & Hsize & _).
  exact (conj Hplayers Hsize).
Defined.

(** X5.  A join action is all or nothing.  Either the client enters a room
    whose code is the upper-cased input, as a new player who is not the host
    and whose row is the one row added to the store; or the store is as it
    was and so is the client state, but for [loading] back to [false]. *)
Theorem joinRoom_all_or_nothing (c_room c_count c_player : Call) (w : World) :
  let w' := run (joinRoom c_room c_count c_player) w in
  (store w' = store w /\ (ui w' = ui w \/ ui w' = with_loading false (ui w))) \/
  (exists r p,
      In r (public_rooms (store w)) /\
      Room.code r = JS.toUpperCase (roomCode (ui w)) /\
      (Z.of_nat (roster_size (Room.id r) (store w)) < Room.max_players r)%Z /\
      public_rooms (store w') = public_rooms (store w) /\
      public_players (store w') = public_players (store w) ++ [p] /\
      Player.is_host p = false /\
      Player.room_id p = Room.id r /\
      ui w' = entered r p (ui w)).
Proof.
  intros w'. subst w'. unfold joinRoom. act_unfold.
  destruct (JS.truthy (JS.trim (playerName (ui w)))); simpl; [|left; auto].
  destruct (JS.truthy (JS.trim (roomCode (ui w)))); simpl; [|left; auto].
  destruct (select_room_by_code c_room (JS.toUpperCase (roomCode (ui w))) (store w))
    as [[roomData | e] db1] eqn:Hroom; simpl.
  2:{ pose proof (select_room_by_code_store c_room (JS.toUpperCase (roomCode (ui w)))
                    (store w)) as Hs.
      rewrite Hroom in Hs. simpl in Hs. subst db1. left; auto. }
  apply select_room_by_code_Data in Hroom as (-> & Hin & Hcode).
  destruct (select_players c_count (Room.id roomData) (store w))
    as [[existing | e] db2] eqn:Hcount; simpl.
  2:{ unfold select_players in Hcount.
      destruct (negb (transport_ok c_count)); inversion Hcount; subst. left; auto. }
  apply select_players_Data in Hcount as (-> & Hexisting).
  destruct (Z.leb_spec (Room.max_players roomData) (Z.of_nat (length existing)))
    as [Hfull | Hfree]; simpl; [left; auto|].
  destruct (insert_player c_player (Room.id roomData) (playerName (ui w)) (Some false)
              (store w)) as [[playerData | e] db3] eqn:Hins; simpl.
  - right. exists roomData, playerData.
    apply insert_player_Data in Hins as (Hrow & Hrooms & Hplayers & _).
    unfold roster_size. rewrite <- Hexisting.
    repeat split; try assumption; rewrite Hrow; reflexivity.
  - apply insert_player_Error in Hins. subst db3. left; auto.
Qed.

(** ** What every handler keeps of the store *)

Section Kept.

Variable P : Store -> Prop.

Hypothesis insert_room_keeps :
  forall c code host_name mp db, P db -> P (snd (insert_room c code host_name mp db)).
Hypothesis insert_player_keeps :
  forall c rid name h db, P db -> P (snd (insert_player c rid name h db)).
Hypothesis delete_player_keeps :
  forall c pid db, P db -> P (snd (delete_player c pid db)).
Hypothesis delete_room_keeps :
  forall c rid db, P db -> P (snd (delete_room c rid db)).

Lemma kept_result {A : Type} (result : Response A * Store) (db : Store) :
  (P db -> P (snd result)) ->
  forall res db', result = (res, db') -> P db -> P db'.
Proof. intros Hkeep res db' ->. exact Hkeep. Qed.

Lemma select_room_by_code_keeps (c : Call) (code : string) (db : Store) :
  P db -> P (snd (select_room_by_code c code db)).
Proof. rewrite select_room_by_code_store. auto. Qed.

Lemma select_players_keeps (c : Call) (rid : string) (db : Store) :
  P db -> P (snd (select_players c rid db)).
Proof. unfold select_players. destruct (transport_ok c); auto. Qed.

Lemma select_players_ordered_keeps (c : Call) (rid : string) (db : Store) :
  P db -> P (snd (select_players_ordered c rid db)).
Proof. unfold select_players_ordered. destruct (transport_ok c); auto. Qed.

Ltac kept call lemma :=
  let H := fresh "Hcall" in
  destruct call as [[?|?] ?] eqn:H;
  (apply (kept_result _ _ lemma) in H; [|assumption]).

Ltac keep_going :=
  repeat (simpl;
          match goal with
          | |- context [JS.truthy ?s] => destruct (JS.truthy s)
          | |- context [insert_room ?c ?a ?b ?m ?db] =>
              kept (insert_room c a b m db) (insert_room_keeps c a b m db)
          | |- context [insert_player ?c ?a ?b ?h ?db] =>
              kept (insert_player c a b h db) (insert_player_keeps c a b h db)
          | |- context [select_room_by_code ?c ?a ?db] =>
              kept (select_room_by_code c a db) (select_room_by_code_keeps c a db)
          | |- context [select_players ?c ?a ?db] =>
              kept (select_players c a db) (select_players_keeps c a db)
          | |- context [select_players_ordered ?c ?a ?db] =>
              kept (select_players_ordered c a db) (select_players_ordered_keeps c a db)
          | |- context [delete_player ?c ?a ?db] =>
              kept (delete_player c a db) (delete_player_keeps c a db)
          | |- context [delete_room ?c ?a ?db] =>
              kept (delete_room c a db) (delete_room_keeps c a db)
          | |- context [Z.leb ?a ?b] => destruct (Z.leb a b)
          | |- context [Nat.ltb ?a ?b] => destruct (Nat.ltb a b)
          | |- context [Player.is_host ?p] => destruct (Player.is_host p)
          | |- context [is_host_opt ?p] => destruct (is_host_opt p)
          | |- context [is_null ?o] => destruct (is_null o)
          end).

(** A property of the store that the four writing store calls keep is kept
    by every handler. *)
Lemma step_keeps (e : Event) (w : World) :
  keeps P e -> P (store w) -> P (store (step e w)).
Proof.
  intros He Hok. destruct e; simpl; try assumption.
  - unfold hostRoom. act_unfold. keep_going; simpl; assumption.
  - unfold joinRoom. act_unfold. keep_going; simpl; assumption.
  - unfold leaveRoom. act_unfold.
    destruct (currentPlayer (ui w)) as [p|]; [|assumption].
    destruct (currentRoom (ui w)) as [r|]; [|assumption].
    act_unfold. keep_going; simpl; assumption.
  - unfold startGame. act_unfold. keep_going; simpl; assumption.
  - unfold fetchPlayers. act_unfold.
    destruct (currentRoom (ui w)) as [r|]; [|assumption].
    act_unfold. keep_going; simpl; assumption.
  - apply He, Hok.
Qed.

Lemma steps_keep (es : list Event) (w : World) :
  Forall (keeps P) es -> P (store w) -> P (store (steps es w)).
Proof.
  revert w; induction es as [|e es IH]; intros w Hes Hok; simpl; [exact Hok|].
  apply Forall_cons_iff in Hes as [He Hes].
  apply IH; [exact Hes | apply step_keeps; assumption].
Qed.

End Kept.

Section Keys.

Lemma NoDup_map_snoc {A B : Type} (f : A -> B) (l : list A) (x : A) :
  NoDup (map f l) -> ~ In (f x) (map f l) -> NoDup (map f (l ++ [x])).
Proof.
  intros Hl Hx. rewrite map_app. simpl.
  apply NoDup_app; [exact Hl | repeat constructor; auto | ].
  intros b Hb [<- | []]. exact (Hx Hb).
Qed.

Lemma NoDup_map_filter {A B : Type} (f : A -> B) (g : A -> bool) (l : list A) :
  NoDup (map f l) -> NoDup (map f (filter g l)).
Proof.
  induction l as [|a l IH]; simpl; intros Hl; [constructor|].
  apply NoDup_cons_iff in Hl as [Ha Hl].
  destruct (g a); simpl; [|auto].
  constructor; [|auto].
  intros Hin. apply Ha. apply in_map_iff in Hin as (y & Hy & Hin).
  apply in_map_iff. exists y. split; [exact Hy|].
  apply filter_In in Hin as [Hin _]. exact Hin.
Qed.

Lemma NoDup_map_injective {A B : Type} (f : A -> B) (l : list A) (x y : A) :
  NoDup (map f l) -> In x l -> In y l -> f x = f y -> x = y.
Proof.
  induction l as [|a l IH]; simpl; intros Hl Hx Hy Hf; [contradiction|].
  apply NoDup_cons_iff in Hl as [Ha Hl].
  destruct Hx as [-> | Hx], Hy as [-> | Hy]; auto.
  - exfalso. apply Ha. rewrite Hf. apply in_map, Hy.
  - exfalso. apply Ha. rewrite <- Hf. apply in_map, Hx.
Qed.

Lemma not_existsb_room_id (rid : string) (rooms : list Room.t) :
  existsb (has_room_id rid) rooms = false -> ~ In rid (map Room.id rooms).
Proof.
  intros Hex Hin. apply in_map_iff in Hin as (r & Hr & Hin).
  assert (H : existsb (has_room_id rid) rooms = true).
  { apply existsb_exists. exists r. split; [exact Hin|].
    unfold has_room_id. apply String.eqb_eq, Hr. }
  congruence.
Qed.

Lemma not_existsb_code (code : string) (rooms : list Room.t) :
  existsb (has_code code) rooms = false -> ~ In code (map Room.code rooms).
Proof.
  intros Hex Hin. apply in_map_iff in Hin as (r & Hr & Hin).
  rewrite (existsb_has_code _ _ _ Hin Hr) in Hex. discriminate.
Qed.

Lemma not_existsb_player_id (pid : string) (l : list Player.t) :
  existsb (has_player_id pid) l = false -> ~ In pid (map Player.id l).
Proof.
  intros Hex Hin. apply in_map_iff in Hin as (p & Hp & Hin).
  assert (H : existsb (has_player_id pid) l = true).
  { apply existsb_exists. exists p. split; [exact Hin|].
    unfold has_player_id. apply String.eqb_eq, Hp. }
  congruence.
Qed.

Lemma insert_room_keys_ok (c : Call) (code host_name : string) (mp : option Z)
    (db : Store) :
  keys_ok db -> keys_ok (snd (insert_room c code host_name mp db)).
Proof.
  intros (Hids & Hcodes & Hpids). unfold insert_room.
  destruct (negb (transport_ok c)); simpl; [repeat split; assumption|].
  destruct (existsb (has_room_id (gen_random_uuid c)) (public_rooms db)) eqn:Hid;
    simpl; [repeat split; assumption|].
  destruct (existsb (has_code code) (public_rooms db)) eqn:Hcode;
    simpl; [repeat split; assumption|].
  repeat split; simpl; [| |assumption].
  - apply NoDup_map_snoc; [assumption | apply not_existsb_room_id, Hid].
  - apply NoDup_map_snoc; [assumption | apply not_existsb_code, Hcode].
Qed.

Lemma insert_player_keys_ok (c : Call) (rid name : string) (h : option bool) (db : Store) :
  keys_ok db -> keys_ok (snd (insert_player c rid name h db)).
Proof.
  intros (Hids & Hcodes & Hpids). unfold insert_player.
  destruct (negb (transport_ok c)); simpl; [repeat split; assumption|].
  destruct (existsb (has_player_id (gen_random_uuid c)) (public_players db)) eqn:Hid;
    simpl; [repeat split; assumption|].
  destruct (negb (existsb (has_room_id rid) (public_rooms db)));
    simpl; [repeat split; assumption|].
  repeat split; simpl; [assumption | assumption |].
  apply NoDup_map_snoc; [assumption | apply not_existsb_player_id, Hid].
Qed.

Lemma delete_player_keys_ok (c : Call) (pid : string) (db : Store) :
  keys_ok db -> keys_ok (snd (delete_player c pid db)).
Proof.
  intros (Hids & Hcodes & Hpids). unfold delete_player.
  destruct (negb (transport_ok c)); simpl; repeat split; try assumption.
  apply NoDup_map_filter, Hpids.
Qed.

Lemma delete_room_keys_ok (c : Call) (rid : string) (db : Store) :
  keys_ok db -> keys_ok (snd (delete_room c rid db)).
Proof.
  intros (Hids & Hcodes & Hpids). unfold delete_room.
  destruct (negb (transport_ok c)); simpl; [repeat split; assumption|].
  destruct (existsb (has_room_id rid) (public_rooms db)); simpl;
    repeat split; try assumption; apply NoDup_map_filter; assumption.
Qed.

End Keys.

(** X6.  The handlers keep the constraints of the migration: from a store
    with unique room ids, unique room codes, unique player ids and every
    player row naming an existing room, any sequence of handler runs of this
    client, mixed with writes of other clients that keep the constraints,
    leads to such a store. *)
Theorem steps_constraints_ok (es : list Event) (w : World) :
  Forall (keeps constraints_ok) es ->
  constraints_ok (store w) ->
  constraints_ok (store (steps es w)).
Proof.
  apply steps_keep.
  - intros c code host_name mp db [Hk Hr].
    split; [apply insert_room_keys_ok, Hk | apply insert_room_references_ok, Hr].
  - intros c rid name h db [Hk Hr].
    split; [apply insert_player_keys_ok, Hk | apply insert_player_references_ok, Hr].
  - intros c pid db [Hk Hr].
    split; [apply delete_player_keys_ok, Hk | apply delete_player_references_ok, Hr].
  - intros c rid db [Hk Hr].
    split; [apply delete_room_keys_ok, Hk | apply delete_room_references_ok, Hr].
Qed.

Lemma steps_constraints_ok_witness :
  constraints_ok
    (store (steps [TypeName "Alice";
                   ClickHost Scenario.draw (Scenario.served "r-1" 100)
                     (Scenario.served "p-1" 101);
                   ClickLeave (Scenario.served "" 500) (Scenario.served "" 501)]
              (world emptyStore initialLobby))).
Proof.
  apply steps_constraints_ok.
  - repeat constructor.
  - split; [repeat split; constructor | intros p []].
Defined.

(** ** Capacity *)

Section Capacity.

Lemma filter_none {A : Type} (f : A -> bool) (l : list A) :
  (forall x, In x l -> f x = false) -> filter f l = [].
Proof.
  induction l as [|a l IH]; simpl; intros H; [reflexivity|].
  rewrite (H a (or_introl eq_refl)). apply IH. intros x Hx. apply H. right. exact Hx.
Qed.

Lemma filter_filter_length {A : Type} (f g : A -> bool) (l : list A) :
  length (filter f (filter g l)) <= length (filter f l).
Proof.
  induction l as [|a l IH]; simpl; [lia|].
  destruct (g a), (f a) eqn:Hf; simpl; rewrite ?Hf; simpl; lia.
Qed.

(** No player row names a room id that no room has. *)
Lemma roster_size_unknown_room (rid : string) (db : Store) :
  references_ok db ->
  existsb (has_room_id rid) (public_rooms db) = false ->
  roster_size rid db = 0.
Proof.
  intros Hok Hnone. unfold roster_size. rewrite filter_none; [reflexivity|].
  intros q Hq. unfold in_room. destruct (String.eqb_spec (Player.room_id q) rid) as [Heq|];
    [|reflexivity].
  specialize (Hok q Hq). rewrite Heq in Hok. congruence.
Qed.

Lemma insert_room_within_capacity (c : Call) (code host_name : string) (mp : option Z)
    (db : Store) :
  references_ok db ->
  (0 <= or_default default_max_players mp)%Z ->
  within_capacity db ->
  within_capacity (snd (insert_room c code host_name mp db)).
Proof.
  intros Hok Hmp Hcap. unfold insert_room.
  destruct (negb (transport_ok c)); simpl; [assumption|].
  destruct (existsb (has_room_id (gen_random_uuid c)) (public_rooms db)) eqn:Hid;
    simpl; [assumption|].
  destruct (existsb (has_code code) (public_rooms db)); simpl; [assumption|].
  intros r Hr. simpl in Hr. apply in_app_or in Hr as [Hr | [<- | []]].
  - apply (Hcap r Hr).
  - unfold roster_size at 1. simpl.
    change (length (filter (in_room (gen_random_uuid c)) (public_players db)))
      with (roster_size (gen_random_uuid c) db).
    rewrite (roster_size_unknown_room _ _ Hok Hid). exact Hmp.
Qed.

(** An insert into a room that has a free place keeps every room within
    its capacity. *)
Lemma insert_player_within_capacity (c : Call) (rid name : string) (h : option bool)
    (db : Store) (r0 : Room.t) :
  keys_ok db ->
  within_capacity db ->
  In r0 (public_rooms db) ->
  Room.id r0 = rid ->
  (Z.of_nat (roster_size rid db) < Room.max_players r0)%Z ->
  within_capacity (snd (insert_player c rid name h db)).
Proof.
  intros (Hids & _) Hcap Hr0 Hrid Hfree. unfold insert_player.
  destruct (negb (transport_ok c)); simpl; [assumption|].
  destruct (existsb (has_player_id (gen_random_uuid c)) (public_players db));
    simpl; [assumption|].
  destruct (negb (existsb (has_room_id rid) (public_rooms db))); simpl; [assumption|].
  intros r Hr. simpl in Hr. unfold roster_size. simpl.
  rewrite filter_app, length_app. simpl. unfold in_room at 2. simpl.
  destruct (String.eqb_spec rid (Room.id r)) as [Heq | Hne]; simpl.
  - assert (r = r0).
    { apply (NoDup_map_injective Room.id (public_rooms db)); congruence. }
    subst r. rewrite Hrid. unfold roster_size in Hfree. lia.
  - specialize (Hcap r Hr). unfold roster_size in Hcap. lia.
Qed.

Lemma delete_player_within_capacity (c : Call) (pid : string) (db : Store) :
  within_capacity db -> within_capacity (snd (delete_player c pid db)).
Proof.
  intros Hcap. unfold delete_player.
  destruct (negb (transport_ok c)); simpl; [assumption|].
  intros r Hr. specialize (Hcap r Hr). unfold roster_size in *. simpl.
  pose proof (filter_filter_length (in_room (Room.id r))
                (fun p => negb (has_player_id pid p)) (public_players db)). lia.
Qed.

Lemma delete_room_within_capacity (c : Call) (rid : string) (db : Store) :
  within_capacity db -> within_capacity (snd (delete_room c rid db)).
Proof.
  intros Hcap. unfold delete_room.
  destruct (negb (transport_ok c)); simpl; [assumption|].
  destruct (existsb (has_room_id rid) (public_rooms db)); simpl; [|assumption].
  intros r Hr. simpl in Hr. apply filter_In in Hr as [Hr _].
  specialize (Hcap r Hr). unfold roster_size in *. simpl.
  pose proof (filter_filter_length (in_room (Room.id r))
                (fun p => negb (in_room rid p)) (public_players db)). lia.
Qed.

End Capacity.

Ltac bounded_now := split; [split|]; assumption.

Lemma hostRoom_bounded (random : list nat) (c_room c_player : Call) (w : World) :
  bounded (store w) -> bounded (store (run (hostRoom random c_room c_player) w)).
Proof.
  intros [[Hk Hr] Hcap]. unfold hostRoom. act_unfold.
  destruct (JS.truthy (JS.trim (playerName (ui w)))); simpl; [|bounded_now].
  pose proof (insert_room_keys_ok c_room (generateRoomCode random) (playerName (ui w))
                (Some 5%Z) _ Hk) as Hk1.
  pose proof (insert_room_references_ok c_room (generateRoomCode random)
                (playerName (ui w)) (Some 5%Z) _ Hr) as Hr1.
  assert (Hfive : (0 <= or_default default_max_players (Some 5))%Z) by (simpl; lia).
  pose proof (insert_room_within_capacity c_room (generateRoomCode random)
                (playerName (ui w)) (Some 5%Z) _ Hr Hfive Hcap) as Hcap1.
  destruct (insert_room c_room (generateRoomCode random) (playerName (ui w)) (Some 5%Z)
              (store w)) as [[roomData | e] db1] eqn:Hroom; simpl in *;
    [|bounded_now].
  apply insert_room_Data in Hroom as (Hrow & Hrooms & Hplayers & Hfresh & _).
  assert (Hin : In roomData (public_rooms db1)).
  { rewrite Hrooms. apply in_or_app. right. left. reflexivity. }
  assert (Hempty : roster_size (Room.id roomData) db1 = 0).
  { unfold roster_size. rewrite Hplayers.
    apply (roster_size_unknown_room _ _ Hr Hfresh). }
  assert (Hfree : (Z.of_nat (roster_size (Room.id roomData) db1)
                   < Room.max_players roomData)%Z).
  { rewrite Hempty, Hrow. simpl. lia. }
  pose proof (insert_player_keys_ok c_player (Room.id roomData) (playerName (ui w))
                (Some true) _ Hk1) as Hk2.
  pose proof (insert_player_references_ok c_player (Room.id roomData) (playerName (ui w))
                (Some true) _ Hr1) as Hr2.
  pose proof (insert_player_within_capacity c_player (Room.id roomData)
                (playerName (ui w)) (Some true) _ roomData Hk1 Hcap1 Hin eq_refl Hfree)
    as Hcap2.
  destruct (insert_player c_player (Room.id roomData) (playerName (ui w)) (Some true) db1)
    as [[playerData | e] db2]; simpl in *; bounded_now.
Qed.

Lemma joinRoom_bounded (c_room c_count c_player : Call) (w : World) :
  bounded (store w) -> bounded (store (run (joinRoom c_room c_count c_player) w)).
Proof.
  intros [[Hk Hr] Hcap].
  unfold joinRoom. act_unfold.
  destruct (JS.truthy (JS.trim (playerName (ui w)))); simpl; [|bounded_now].
  destruct (JS.truthy (JS.trim (roomCode (ui w)))); simpl; [|bounded_now].
  destruct (select_room_by_code c_room (JS.toUpperCase (roomCode (ui w))) (store w))
    as [[roomData | e] db1] eqn:Hroom; simpl.
  2:{ pose proof (select_room_by_code_store c_room (JS.toUpperCase (roomCode (ui w)))
                    (store w)) as Hs.
      rewrite Hroom in Hs. simpl in Hs. subst db1. bounded_now. }
  apply select_room_by_code_Data in Hroom as (-> & Hin' & _).
  destruct (select_players c_count (Room.id roomData) (store w))
    as [[existing | e] db2] eqn:Hcount; simpl.
  2:{ unfold select_players in Hcount.
      destruct (negb (transport_ok c_count)); inversion Hcount; subst.
      bounded_now. }
  apply select_players_Data in Hcount as (-> & Hexisting).
  destruct (Z.leb_spec (Room.max_players roomData) (Z.of_nat (length existing)))
    as [Hfull | Hfree']; simpl; [bounded_now|].
  assert (Hfree'' : (Z.of_nat (roster_size (Room.id roomData) (store w))
                     < Room.max_players roomData)%Z).
  { unfold roster_size. rewrite <- Hexisting. exact Hfree'. }
  pose proof (insert_player_keys_ok c_player (Room.id roomData) (playerName (ui w))
                (Some false) _ Hk) as Hk2.
  pose proof (insert_player_references_ok c_player (Room.id roomData)
                (playerName (ui w)) (Some false) _ Hr) as Hr2.
  pose proof (insert_player_within_capacity c_player (Room.id roomData)
                (playerName (ui w)) (Some false) _ roomData Hk Hcap Hin' eq_refl Hfree'')
    as Hcap2.
  destruct (insert_player c_player (Room.id roomData) (playerName (ui w)) (Some false)
              (store w)) as [[playerData | e] db3]; simpl in *; bounded_now.
Qed.

Lemma leaveRoom_bounded (c_player c_room : Call) (w : World) :
  bounded (store w) -> bounded (store (run (leaveRoom c_player c_room) w)).
Proof.
  intros Hb.
  destruct (currentPlayer (ui w)) as [p|] eqn:Hp.
  2:{ unfold leaveRoom. act_unfold. rewrite Hp. exact Hb. }
  destruct (currentRoom (ui w)) as [r|] eqn:Hroom.
  2:{ unfold leaveRoom. act_unfold. rewrite Hp, Hroom. exact Hb. }
  rewrite (leaveRoom_run _ _ _ _ _ Hp Hroom). simpl.
  destruct Hb as [[Hk Hr] Hcap].
  assert (Hb1 : bounded (snd (delete_player c_player (Player.id p) (store w)))).
  { split; [split|];
      [apply delete_player_keys_ok | apply delete_player_references_ok
       | apply delete_player_within_capacity]; assumption. }
  destruct (Player.is_host p); [|exact Hb1].
  destruct Hb1 as [[Hk1 Hr1] Hcap1].
  split; [split|];
    [apply delete_room_keys_ok | apply delete_room_references_ok
     | apply delete_room_within_capacity]; assumption.
Qed.

Lemma step_bounded (e : Event) (w : World) :
  keeps bounded e -> bounded (store w) -> bounded (store (step e w)).
Proof.
  intros He Hb. destruct e; simpl; try assumption.
  - apply hostRoom_bounded, Hb.
  - apply joinRoom_bounded, Hb.
  - apply leaveRoom_bounded, Hb.
  - unfold startGame. act_unfold.
    destruct (is_null (currentRoom (ui w)) || negb (is_host_opt (currentPlayer (ui w))));
      simpl; [assumption|].
    destruct (length (players (ui w)) <? 2); assumption.
  - unfold fetchPlayers. act_unfold.
    destruct (currentRoom (ui w)) as [r|]; [|assumption].
    act_unfold. unfold select_players_ordered.
    destruct (negb (transport_ok c)); assumption.
  - apply He, Hb.
Qed.

(** X7.  Run one after the other, the handlers never fill a room beyond its
    capacity: from a store that satisfies the constraints of the migration
    and in which no room has more Player rows than its [max_players], any
    sequence of handler runs of this client, mixed with writes of other
    clients that keep this, leads to such a store.  [hostRoom] puts one
    player into a room of five, and [joinRoom] inserts only after it has
    counted fewer rows than [max_players]. *)
Theorem steps_within_capacity (es : list Event) (w : World) :
  Forall (keeps bounded) es ->
  bounded (store w) ->
  bounded (store (steps es w)).
Proof.
  revert w; induction es as [|e es IH]; intros w Hes Hb; simpl; [exact Hb|].
  apply Forall_cons_iff in Hes as [He Hes].
  apply IH; [exact Hes | apply step_bounded; assumption].
Qed.

Lemma steps_within_capacity_witness :
  bounded
    (store (steps [TypeName "Bob"; TypeCode "abc123";
                   ClickJoin (Scenario.served "" 200) (Scenario.served "" 201)
                     (Scenario.served "p-2" 205)]
              (world Scenario.hosted initialLobby))).
Proof.
  apply steps_within_capacity.
  - repeat constructor.
  - split; [split; [repeat split|]|].
    + repeat constructor; simpl; tauto.
    + repeat constructor; simpl; tauto.
    + repeat constructor; simpl; tauto.
    + intros p [<- | []]; reflexivity.
    + intros r [<- | []]; vm_compute; discriminate.
Defined.

(** ** Hosting, then joining *)

Lemma filter_has_code_none (code : string) (rooms : list Room.t) :
  existsb (has_code code) rooms = false -> filter (has_code code) rooms = [].
Proof.
  intros Hex. apply filter_none. intros r Hr.
  destruct (has_code code r) eqn:Hc; [|reflexivity].
  assert (H : existsb (has_code code) rooms = true)
    by (apply existsb_exists; exists r; auto).
  congruence.
Qed.

(** X8.  A room that a host action has created is found by a join action
    under its code typed in any letter case.  After a host action whose two
    inserts returned their rows, a join action of another client whose input
    upper-cases to the room's code, whose two queries are carried out and
    whose insert returns its row enters that very room: the store holds the
    host's row and the guest's row as the two players of the room. *)
Theorem host_then_join_in_any_case
    (random : list nat) (c_room c_player : Call) (w : World)
    (roomData : Room.t) (hostData : Player.t) (db1 db2 : Store)
    (j_room j_count j_player : Call) (guest : Lobby) (guestData : Player.t) (db3 : Store) :
  references_ok (store w) ->
  JS.trim (playerName (ui w)) <> "" ->
  insert_room c_room (generateRoomCode random) (playerName (ui w)) (Some 5%Z) (store w)
    = (Data roomData, db1) ->
  insert_player c_player (Room.id roomData) (playerName (ui w)) (Some true) db1
    = (Data hostData, db2) ->
  JS.trim (playerName guest) <> "" ->
  JS.trim (roomCode guest) <> "" ->
  JS.toUpperCase (roomCode guest) = generateRoomCode random ->
  transport_ok j_room = true ->
  transport_ok j_count = true ->
  insert_player j_player (Room.id roomData) (playerName guest) (Some false) db2
    = (Data guestData, db3) ->
  let hosted := run (hostRoom random c_room c_player) w in
  let joined := run (joinRoom j_room j_count j_player) (world (store hosted) guest) in
  ui joined = entered roomData guestData guest /\
  public_rooms (store joined) = public_rooms (store w) ++ [roomData] /\
  public_players (store joined) = public_players (store w) ++ [hostData; guestData] /\
  filter (in_room (Room.id roomData)) (public_players (store joined))
    = [hostData; guestData].
Proof.
  intros Hok Hname Hroom Hplayer Hgname Hgcode Hupper Hjr Hjc Hguest hosted joined.
  assert (Hhosted : store hosted = db2).
  { subst hosted. unfold hostRoom. act_unfold.
    rewrite (truthy_trim_nonempty _ Hname). simpl.
    rewrite Hroom. simpl. rewrite Hplayer. reflexivity. }
  apply insert_room_Data in Hroom as (Hrow & Hrooms1 & Hplayers1 & Hfresh & Hnocode).
  apply insert_player_Data in Hplayer as (Hhost & Hrooms2 & Hplayers2 & _).
  assert (Hlookup : select_room_by_code j_room (JS.toUpperCase (roomCode guest)) db2
                    = (Data roomData, db2)).
  { unfold select_room_by_code. rewrite Hjr. simpl.
    rewrite Hrooms2, Hrooms1, filter_app, Hupper, (filter_has_code_none _ _ Hnocode).
    simpl. unfold has_code. rewrite Hrow at 1. simpl. rewrite String.eqb_refl. reflexivity. }
  assert (Hroster : filter (in_room (Room.id roomData)) (public_players db2) = [hostData]).
  { rewrite Hplayers2, Hplayers1, filter_app.
    pose proof (roster_size_unknown_room _ _ Hok Hfresh) as Hzero.
    unfold roster_size in Hzero. apply length_zero_iff_nil in Hzero. rewrite Hzero.
    simpl. unfold in_room. rewrite Hhost at 1. simpl. rewrite String.eqb_refl. reflexivity. }
  assert (Hcount : select_players j_count (Room.id roomData) db2 = (Data [hostData], db2)).
  { unfold select_players. rewrite Hjc. simpl. rewrite Hroster. reflexivity. }
  assert (Hfive : Room.max_players roomData = 5%Z) by (rewrite Hrow; reflexivity).
  assert (Hjoined : joined = {| store := db3; ui := entered roomData guestData guest;
                                out := [Toast "Joined room!"
                                          (String.append "Joined room: "
                                             (JS.toUpperCase (roomCode guest))) default] |}).
  { subst joined. rewrite Hhosted. unfold joinRoom, world. act_unfold.
    rewrite (truthy_trim_nonempty _ Hgname), (truthy_trim_nonempty _ Hgcode). simpl.
    rewrite Hlookup. simpl. rewrite Hcount. simpl. rewrite Hfive. simpl.
    rewrite Hguest. reflexivity. }
  rewrite Hjoined. simpl.
  apply insert_player_Data in Hguest as (Hg & Hrooms3 & Hplayers3 & _).
  rewrite Hrooms3, Hplayers3, Hrooms2, Hplayers2, Hrooms1, Hplayers1.
  split; [reflexivity|]. split; [reflexivity|].
  split; [rewrite <- app_assoc; reflexivity|].
  rewrite <- Hplayers1, <- Hplayers2, filter_app, Hroster.
  simpl. unfold in_room. rewrite Hg at 1. simpl. rewrite String.eqb_refl. reflexivity.
Qed.

Lemma host_then_join_in_any_case_witness :
  let hosted := run (hostRoom Scenario.draw (Scenario.served "r-1" 100)
                       (Scenario.served "p-1" 101))
                  (world emptyStore (Scenario.at_landing "Alice" "")) in
  let joined := run (joinRoom (Scenario.served "" 200) (Scenario.served "" 201)
                       (Scenario.served "p-2" 205))
                  (world (store hosted) (Scenario.at_landing "Bob" "aBc123")) in
  public_players (store joined) = [Scenario.alice; Scenario.bob] /\
  currentRoom (ui joined) = Some Scenario.the_room.
Proof.
  intros hosted joined.
  assert (Hname : JS.trim "Alice" <> "") by (vm_compute; discriminate).
  assert (Hgname : JS.trim "Bob" <> "") by (vm_compute; discriminate).
  assert (Hgcode : JS.trim "aBc123" <> "") by (vm_compute; discriminate).
  destruct (host_then_join_in_any_case
              Scenario.draw (Scenario.served "r-1" 100) (Scenario.served "p-1" 101)
              (world emptyStore (Scenario.at_landing "Alice" ""))
              Scenario.the_room Scenario.alice
              {| public_rooms := [Scenario.the_room]; public_players := [] |}
              Scenario.hosted
              (Scenario.served "" 200) (Scenario.served "" 201) (Scenario.served "p-2" 205)
              (Scenario.at_landing "Bob" "aBc123") Scenario.bob Scenario.joined
              emptyStore_references_ok Hname eq_refl eq_refl Hgname Hgcode
              eq_refl eq_refl eq_refl eq_refl)
    as (Hui & _ & Hplayers & _).
  exact (conj Hplayers (f_equal currentRoom Hui)).
Defined.

(** ** Codes *)

Lemma substring0_of_list (n : nat) (l : list ascii) :
  String.substring 0 n (string_of_list_ascii l) = string_of_list_ascii (firstn n l).
Proof.
  revert n; induction l as [|a l IH]; intros [|n]; simpl; try reflexivity.
  rewrite IH. reflexivity.
Qed.

(** X9.  The code is made of the first six fraction digits and of nothing
    else: two draws that print the same first six digits give the same
    code, however they go on. *)
Theorem generateRoomCode_first_six_digits (frac frac' : list nat) :
  firstn 6 frac = firstn 6 frac' ->
  generateRoomCode frac = generateRoomCode frac'.
Proof.
  intros Hsix. rewrite !generateRoomCode_prefix, !substring0_of_list, !firstn_map, Hsix.
  reflexivity.
Qed.

Lemma generateRoomCode_first_six_digits_witness :
  generateRoomCode [10; 11; 12; 1; 2; 3; 35] = generateRoomCode [10; 11; 12; 1; 2; 3; 0; 7].
Proof. exact (generateRoomCode_first_six_digits _ _ eq_refl). Defined.

(** X10.  A room with a blank code cannot be joined.  The draw 0 prints no
    fraction digit and the room that [hostRoom] then inserts has the empty
    code; but the room that a join action enters always has a code that is
    not blank, since it is the upper-cased input that passed the check. *)
Theorem blank_code_is_never_joined :
  (forall (c_room : Call) (host_name : string) (db db' : Store) (roomData : Room.t),
      insert_room c_room (generateRoomCode []) host_name (Some 5%Z) db
        = (Data roomData, db') ->
      Room.code roomData = "") /\
  (forall (c_room c_count c_player : Call) (w : World) (r : Room.t),
      currentRoom (ui w) = None ->
      currentRoom (ui (run (joinRoom c_room c_count c_player) w)) = Some r ->
      JS.trim (Room.code r) <> "").
Proof.
  split.
  - intros c_room host_name db db' roomData H.
    apply insert_room_Data in H as (-> & _). reflexivity.
  - intros c_room c_count c_player w r Hnone. unfold joinRoom. act_unfold.
    destruct (JS.truthy (JS.trim (playerName (ui w)))); simpl; [|congruence].
    destruct (JS.truthy (JS.trim (roomCode (ui w)))) eqn:Hcode; simpl; [|congruence].
    destruct (select_room_by_code c_room (JS.toUpperCase (roomCode (ui w))) (store w))
      as [[roomData | e] db1] eqn:Hroom; simpl; [|congruence].
    apply select_room_by_code_Data in Hroom as (-> & _ & Hmatch).
    destruct (select_players c_count (Room.id roomData) (store w))
      as [[existing | e] db2]; simpl; [|congruence].
    destruct (Room.max_players roomData <=? Z.of_nat (length existing))%Z;
      simpl; [congruence|].
    destruct (insert_player c_player (Room.id roomData) (playerName (ui w)) (Some false) db2)
      as [[playerData | e] db3]; simpl; [|congruence].
    intros H; injection H as <-.
    rewrite Hmatch, trim_toUpperCase.
    destruct (JS.trim (roomCode (ui w))); [discriminate | discriminate].
Qed.

Lemma blank_code_is_never_joined_witness :
  JS.trim (Room.code Scenario.the_room) <> "".
Proof.
  exact (proj2 blank_code_is_never_joined
           (Scenario.served "" 200) (Scenario.served "" 201) (Scenario.served "p-2" 205)
           (world Scenario.hosted (Scenario.at_landing "Bob" "abc123"))
           Scenario.the_room eq_refl eq_refl).
Defined.

(** ** The Start Game button and its handler *)

(** X11.  The Start Game button and [startGame] agree: whenever the button
    is rendered, it is enabled exactly when a click navigates to the game;
    when it is not rendered (the player is not the host), [startGame] does
    nothing.  So the not-enough-players toast of [startGame] can only answer
    a click on a disabled button. *)
Theorem startGameButton_enabled_iff_navigates (w : World) :
  match startGameButton (ui w) with
  | Some button =>
      disabled button = false <-> out (run startGame w) = out w ++ [Navigate "/game"]
  | None => run startGame w = w
  end.
Proof.
  unfold startGameButton, startGame. act_unfold.
  destruct (is_host_opt (currentPlayer (ui w))); simpl.
  - destruct (is_null (currentRoom (ui w))); simpl.
    + split; [discriminate|]. intros H.
      rewrite <- (app_nil_r (out w)) in H at 1. apply app_inv_head in H. discriminate.
    + destruct (length (players (ui w)) <? 2); simpl.
      * split; [discriminate|]. intros H. apply app_inv_head in H. discriminate.
      * split; reflexivity.
  - rewrite orb_true_r. simpl. destruct w; reflexivity.
Qed.

(** ** The roster right after entering *)

(** X12.  [hostRoom] does not write the roster.  A client that has hosted
    from Landing is in its room with an empty local roster, and its Start
    Game button is disabled and asks for two more players, although the
    store already holds the host's row as a player of the room: the roster
    is filled by a refresh only. *)
Theorem hostRoom_leaves_roster_empty
    (random : list nat) (c_room c_player : Call) (w : World)
    (roomData : Room.t) (playerData : Player.t) (db1 db2 : Store) :
  Landing (ui w) ->
  JS.trim (playerName (ui w)) <> "" ->
  insert_room c_room (generateRoomCode random) (playerName (ui w)) (Some 5%Z) (store w)
    = (Data roomData, db1) ->
  insert_player c_player (Room.id roomData) (playerName (ui w)) (Some true) db1
    = (Data playerData, db2) ->
  let w' := run (hostRoom random c_room c_player) w in
  In playerData (filter (in_room (Room.id roomData)) (public_players (store w'))) /\
  players (ui w') = [] /\
  startGameButton (ui w') = Some {| disabled := true; need_more := Some 2%Z |}.
Proof.
  intros (_ & _ & _ & Hempty) Hname Hroom Hplayer w'.
  assert (Hw' : store w' = db2 /\ ui w' = entered roomData playerData (ui w)).
  { subst w'. unfold hostRoom. act_unfold.
    rewrite (truthy_trim_nonempty _ Hname). simpl.
    rewrite Hroom. simpl. rewrite Hplayer. split; reflexivity. }
  destruct Hw' as [Hstore Hui]. rewrite Hstore, Hui.
  apply insert_player_Data in Hplayer as (Hrow & _ & Hplayers & _).
  split; [|split].
  - apply filter_In. split.
    + rewrite Hplayers. apply in_or_app. right. left. reflexivity.
    + rewrite Hrow. unfold in_room. simpl. apply String.eqb_refl.
  - simpl. exact Hempty.
  - unfold startGameButton. simpl. rewrite Hempty, Hrow. reflexivity.
Qed.

Lemma hostRoom_leaves_roster_empty_witness :
  let w := world emptyStore (Scenario.at_landing "Alice" "") in
  let w' := run (hostRoom Scenario.draw (Scenario.served "r-1" 100)
                   (Scenario.served "p-1" 101)) w in
  players (ui w') = [] /\
  startGameButton (ui w') = Some {| disabled := true; need_more := Some 2%Z |}.
Proof.
  intros w w'.
  assert (Hlanding : Landing (ui w)) by (repeat split).
  assert (Hname : JS.trim (playerName (ui w)) <> "") by (vm_compute; discriminate).
  destruct (hostRoom_leaves_roster_empty
              Scenario.draw (Scenario.served "r-1" 100) (Scenario.served "p-1" 101) w
              Scenario.the_room Scenario.alice
              {| public_rooms := [Scenario.the_room]; public_players := [] |}
              Scenario.hosted Hlanding Hname eq_refl eq_refl)
    as (_ & Hroster & Hbutton).
  exact (conj Hroster Hbutton).
Defined.

(** ** Refreshing the roster *)

(** X13.  A refresh that fails leaves the roster as it is and is only
    logged; without a room no query is sent at all.  In both cases the store
    and the other state cells are untouched. *)
Theorem fetchPlayers_failure_keeps_roster (c : Call) (w : World) :
  (currentRoom (ui w) = None -> run (fetchPlayers c) w = w) /\
  (forall (r : Room.t) (e : PostgrestError),
      currentRoom (ui w) = Some r ->
      fst (select_players_ordered c (Room.id r) (store w)) = Error e ->
      run (fetchPlayers c) w =
      {| store := store w; ui := ui w;
         out := out w ++ [ConsoleError "Error fetching players:" e] |}).
Proof.
  split.
  - intros Hnone. unfold fetchPlayers. act_unfold. rewrite Hnone. destruct w; reflexivity.
  - intros r e Hr. unfold fetchPlayers. act_unfold. rewrite Hr. act_unfold.
    unfold select_players_ordered.
    destruct (negb (transport_ok c)); simpl; intros H; [|discriminate].
    injection H as <-. reflexivity.
Qed.

Lemma fetchPlayers_failure_keeps_roster_witness :
  let w := world Scenario.joined
             (Scenario.in_room_as Scenario.the_room Scenario.alice [Scenario.alice]) in
  players (ui (run (fetchPlayers Scenario.dropped) w)) = [Scenario.alice].
Proof.
  intros w.
  exact (f_equal (fun w' => players (ui w'))
           (proj2 (fetchPlayers_failure_keeps_roster Scenario.dropped w)
              Scenario.the_room FetchFailed eq_refl eq_refl)).
Defined.

(** ** What the handlers write to the state cells *)

Lemma hostRoom_ui (random : list nat) (c_room c_player : Call) (w : World) :
  let w' := run (hostRoom random c_room c_player) w in
  ui w' = ui w \/ ui w' = with_loading false (ui w) \/
  exists r p, Player.room_id p = Room.id r /\ ui w' = entered r p (ui w).
Proof.
  intros w'. subst w'. unfold hostRoom. act_unfold.
  destruct (JS.truthy (JS.trim (playerName (ui w)))); simpl; [|auto].
  destruct (insert_room c_room (generateRoomCode random) (playerName (ui w)) (Some 5%Z)
              (store w)) as [[roomData | e] db1]; simpl; [|auto].
  destruct (insert_player c_player (Room.id roomData) (playerName (ui w)) (Some true) db1)
    as [[playerData | e] db2] eqn:Hins; simpl; [|auto].
  apply insert_player_Data in Hins as (Hrow & _).
  right; right. exists roomData, playerData. split; [rewrite Hrow|]; reflexivity.
Qed.

Lemma joinRoom_ui (c_room c_count c_player : Call) (w : World) :
  let w' := run (joinRoom c_room c_count c_player) w in
  ui w' = ui w \/ ui w' = with_loading false (ui w) \/
  exists r p, Player.room_id p = Room.id r /\ ui w' = entered r p (ui w).
Proof.
  intros w'. subst w'. unfold joinRoom. act_unfold.
  destruct (JS.truthy (JS.trim (playerName (ui w)))); simpl; [|auto].
  destruct (JS.truthy (JS.trim (roomCode (ui w)))); simpl; [|auto].
  destruct (select_room_by_code c_room (JS.toUpperCase (roomCode (ui w))) (store w))
    as [[roomData | e] db1]; simpl; [|auto].
  destruct (select_players c_count (Room.id roomData) db1)
    as [[existing | e] db2]; simpl; [|auto].
  destruct (Room.max_players roomData <=? Z.of_nat (length existing))%Z; simpl; [auto|].
  destruct (insert_player c_player (Room.id roomData) (playerName (ui w)) (Some false) db2)
    as [[playerData | e] db3] eqn:Hins; simpl; [|auto].
  apply insert_player_Data in Hins as (Hrow & _).
  right; right. exists roomData, playerData. split; [rewrite Hrow|]; reflexivity.
Qed.

Lemma startGame_ui (w : World) : ui (run startGame w) = ui w.
Proof.
  unfold startGame. act_unfold.
  destruct (is_null (currentRoom (ui w)) || negb (is_host_opt (currentPlayer (ui w))));
    simpl; [reflexivity|].
  destruct (length (players (ui w)) <? 2); reflexivity.
Qed.

Lemma ordered_roster_in_room (rid : string) (l : list Player.t) (q : Player.t) :
  In q (order_by_joined_at (filter (in_room rid) l)) -> Player.room_id q = rid.
Proof.
  intros Hq.
  apply (Permutation_in _ (order_by_joined_at_perm _)) in Hq.
  apply filter_In in Hq as [_ Hq]. unfold in_room in Hq. apply String.eqb_eq, Hq.
Qed.

(** ** The code cell *)

Lemma step_roomCode (e : Event) (w : World) :
  roomCode (ui (step e w)) = roomCode (ui w) \/
  roomCode (ui (step e w)) = "" \/
  exists value, roomCode (ui (step e w)) = JS.toUpperCase value.
Proof.
  destruct e; simpl.
  - left; reflexivity.
  - right; right. eexists; reflexivity.
  - left. destruct (hostRoom_ui random c_room c_player w) as [H | [H | (r & p & _ & H)]];
      rewrite H; reflexivity.
  - left. destruct (joinRoom_ui c_room c_count c_player w) as [H | [H | (r & p & _ & H)]];
      rewrite H; reflexivity.
  - unfold leaveRoom. act_unfold.
    destruct (currentPlayer (ui w)) as [p|]; [|left; reflexivity].
    destruct (currentRoom (ui w)) as [r|]; [|left; reflexivity].
    right; left. act_unfold. break_calls; reflexivity.
  - left. rewrite startGame_ui. reflexivity.
  - left. unfold fetchPlayers. act_unfold.
    destruct (currentRoom (ui w)) as [r|]; [|reflexivity].
    act_unfold. unfold select_players_ordered.
    destruct (negb (transport_ok c)); reflexivity.
  - right; left; reflexivity.
  - left; reflexivity.
Qed.

(** X16.  The code cell always holds an upper-case string: it is written
    by the input's [onChange], which upper-cases, and by the resets to the
    empty string only.  So, from the initial state and after any events, the
    [toUpperCase] of [joinRoom] changes nothing and the lookup compares the
    rooms' codes with the code as the input shows it. *)
Theorem roomCode_always_upper_case (es : list Event) (db : Store) (r : Room.t) :
  let st := ui (steps es (world db initialLobby)) in
  JS.toUpperCase (roomCode st) = roomCode st /\
  (code_matches (roomCode st) r <-> Room.code r = roomCode st).
Proof.
  intros st.
  assert (Hupper : JS.toUpperCase (roomCode st) = roomCode st).
  { subst st.
    assert (G : forall es w, JS.toUpperCase (roomCode (ui w)) = roomCode (ui w) ->
                  JS.toUpperCase (roomCode (ui (steps es w))) = roomCode (ui (steps es w))).
    { induction es0 as [|e es0 IH]; intros w Hw; simpl; [exact Hw|].
      apply IH.
      destruct (step_roomCode e w) as [H | [H | (value & H)]]; rewrite H;
        [exact Hw | reflexivity | apply toUpperCase_idempotent]. }
    apply G. reflexivity. }
  split; [exact Hupper|]. unfold code_matches. rewrite Hupper. reflexivity.
Qed.

(** ** The component before the store *)

Section LocalFacts.

Lemma local_step_room_ok (e : Local.Event) (st : Local.Lobby) :
  Local.room_ok st -> Local.room_ok (fst (Local.step e st)).
Proof.
  intros Hok. destruct e; simpl; try exact Hok.
  - unfold Local.hostRoom.
    destruct (JS.truthy (JS.trim (Local.playerName st))); simpl; [|exact Hok].
    unfold Local.room_ok. simpl. repeat split; auto; lia.
  - unfold Local.joinRoom.
    destruct (JS.truthy (JS.trim (Local.playerName st))); simpl; [|exact Hok].
    destruct (JS.truthy (JS.trim (Local.roomCode st))); simpl; [|exact Hok].
    unfold Local.room_ok. simpl. repeat split; auto; try lia; discriminate.
  - exact I.
  - unfold Local.cancelRoom.
    destruct (Local.isHost_opt (Local.currentPlayer st)); simpl; [exact I | exact Hok].
  - unfold Local.startGame.
    destruct (Local.currentRoom st) as [r|]; [|exact Hok].
    destruct (Local.isHost_opt (Local.currentPlayer st)); simpl; [|exact Hok].
    destruct (length (Local.Room.players r) <? 2); exact Hok.
Qed.

Lemma local_step_toasts (e : Local.Event) (st : Local.Lobby) :
  Local.room_ok st -> Forall is_toast (snd (Local.step e st)).
Proof.
  intros Hok. destruct e; simpl; try constructor.
  - unfold Local.hostRoom.
    destruct (JS.truthy (JS.trim (Local.playerName st))); simpl; repeat constructor.
  - unfold Local.joinRoom.
    destruct (JS.truthy (JS.trim (Local.playerName st))); simpl; [|repeat constructor].
    destruct (JS.truthy (JS.trim (Local.roomCode st))); simpl; repeat constructor.
  - exact I.
  - constructor.
  - unfold Local.cancelRoom.
    destruct (Local.isHost_opt (Local.currentPlayer st)); simpl; repeat constructor.
  - unfold Local.startGame, Local.room_ok in *.
    destruct (Local.currentRoom st) as [r|]; [|constructor].
    destruct (Local.currentPlayer st) as [p|]; simpl in *; [|constructor].
    destruct (Local.Player.isHost p); simpl; [|constructor].
    destruct Hok as (_ & _ & _ & Halone). rewrite (Halone eq_refl). simpl.
    repeat constructor.
Qed.

Lemma local_steps_room_ok (es : list Local.Event) (st : Local.Lobby) :
  Local.room_ok st ->
  Local.room_ok (fst (Local.steps es st)) /\ Forall is_toast (snd (Local.steps es st)).
Proof.
  revert st; induction es as [|e es IH]; intros st Hok; simpl; [split; [exact Hok | constructor]|].
  pose proof (local_step_room_ok e st Hok) as Hok1.
  pose proof (local_step_toasts e st Hok) as Hshown1.
  destruct (Local.step e st) as [st1 shown1]. simpl in *.
  destruct (IH st1 Hok1) as [Hok2 Hshown2].
  destruct (Local.steps es st1) as [st2 shown2]. simpl in *.
  split; [exact Hok2 | apply Forall_app; split; assumption].
Qed.

End LocalFacts.

(** X17.  In the component before the store, a room always has the shape
    its handlers give it: whatever the user does from the initial state, a
    room and a player are held together or not at all; the held player is on
    the roster of the room, which has exactly one host and at most
    [maxPlayers] entries; and a holder who is the host is alone in the
    room. *)
Theorem local_room_always_ok (es : list Local.Event) :
  Local.room_ok (fst (Local.steps es Local.initialLobby)).
Proof. apply local_steps_room_ok. exact I. Qed.

(** X18.  In the component before the store the game can never be started:
    whatever the user does from the initial state, [startGame] never assigns
    [window.location.href], and all that is ever shown are toasts.  A hosted
    room keeps its one player, since nobody can join it, and a player who
    has joined is not the host. *)
Theorem local_never_navigates (es : list Local.Event) :
  let shown := snd (Local.steps es Local.initialLobby) in
  existsb navigates shown = false /\ Forall is_toast shown.
Proof.
  intros shown.
  destruct (local_steps_room_ok es Local.initialLobby I) as [_ Hshown].
  split; [|exact Hshown].
  fold shown in Hshown. induction Hshown as [|o l Ho _ IH]; simpl; [reflexivity|].
  rewrite IH. destruct o; simpl in *; tauto.
Qed.

(** ** Hosting, every outcome *)

(** X19.  A host action ends in one of three ways and never removes or
    changes a row.  Nothing is written and the client stays where it was
    (but for [loading] back to [false]); or one room row of capacity five is
    added without a player and the client stays where it was; or that room
    row and one row for its host are added and the client enters the room as
    that player. *)
Theorem hostRoom_outcomes (random : list nat) (c_room c_player : Call) (w : World) :
  let w' := run (hostRoom random c_room c_player) w in
  (store w' = store w /\ (ui w' = ui w \/ ui w' = with_loading false (ui w))) \/
  (exists r,
      Room.code r = generateRoomCode random /\ Room.max_players r = 5%Z /\
      public_rooms (store w') = public_rooms (store w) ++ [r] /\
      public_players (store w') = public_players (store w) /\
      ui w' = with_loading false (ui w)) \/
  (exists r p,
      Room.code r = generateRoomCode random /\ Room.max_players r = 5%Z /\
      Player.is_host p = true /\ Player.room_id p = Room.id r /\
      public_rooms (store w') = public_rooms (store w) ++ [r] /\
      public_players (store w') = public_players (store w) ++ [p] /\
      ui w' = entered r p (ui w)).
Proof.
  intros w'. subst w'. unfold hostRoom. act_unfold.
  destruct (JS.truthy (JS.trim (playerName (ui w)))); simpl; [|left; auto].
  destruct (insert_room c_room (generateRoomCode random) (playerName (ui w)) (Some 5%Z)
              (store w)) as [[roomData | e] db1] eqn:Hroom; simpl.
  2:{ apply insert_room_Error in Hroom. subst db1. left; auto. }
  apply insert_room_Data in Hroom as (Hrow & Hrooms & Hplayers & _).
  destruct (insert_player c_player (Room.id roomData) (playerName (ui w)) (Some true) db1)
    as [[playerData | e] db2] eqn:Hins; simpl.
  - apply insert_player_Data in Hins as (Hp & Hrooms2 & Hplayers2 & _).
    right; right. exists roomData, playerData.
    rewrite Hrooms2, Hplayers2, Hrooms, Hplayers.
    repeat split; try (rewrite Hrow; reflexivity); rewrite Hp; reflexivity.
  - apply insert_player_Error in Hins. subst db2.
    right; left. exists roomData.
    rewrite Hrooms, Hplayers. repeat split; rewrite Hrow; reflexivity.
Qed.

(** ** The guests of a closed room *)

(** X21.  Once the host has left and the store has carried out the delete
    of the room, a refresh of any client still in that room, when its query
    is carried out, empties the roster: the cascade has left no row to
    show. *)
Theorem guest_roster_after_host_left
    (c_player c_room c : Call) (w : World) (p : Player.t) (r : Room.t) (guest : Lobby) :
  currentPlayer (ui w) = Some p ->
  currentRoom (ui w) = Some r ->
  Player.is_host p = true ->
  transport_ok c_room = true ->
  references_ok (store w) ->
  currentRoom guest = Some r ->
  transport_ok c = true ->
  let closed := store (run (leaveRoom c_player c_room) w) in
  players (ui (run (fetchPlayers c) (world closed guest))) = [] /\
  roster_size (Room.id r) closed = 0.
Proof.
  intros Hp Hr Hhost Hcr Hok Hguest Hc closed.
  assert (Hnone : filter (in_room (Room.id r)) (public_players closed) = []).
  { subst closed. rewrite (leaveRoom_run _ _ _ _ _ Hp Hr). simpl. rewrite Hhost.
    destruct (delete_room_clears c_room (Room.id r) _ Hcr
                (delete_player_references_ok c_player (Player.id p) _ Hok)) as [_ Hplayers].
    apply filter_none. intros q Hq. unfold in_room.
    apply String.eqb_neq, (Hplayers q Hq). }
  split.
  - unfold fetchPlayers, world. act_unfold. rewrite Hguest. act_unfold.
    unfold select_players_ordered. rewrite Hc. simpl. rewrite Hnone. reflexivity.
  - unfold roster_size. rewrite Hnone. reflexivity.
Qed.

Lemma guest_roster_after_host_left_witness :
  let w := world Scenario.joined
             (Scenario.in_room_as Scenario.the_room Scenario.alice
                [Scenario.alice; Scenario.bob]) in
  let closed := store (run (leaveRoom (Scenario.served "" 500) (Scenario.served "" 501)) w) in
  players (ui (run (fetchPlayers (Scenario.served "" 510))
                 (world closed
                    (Scenario.in_room_as Scenario.the_room Scenario.bob
                       [Scenario.alice; Scenario.bob])))) = [].
Proof.
  intros w closed.
  assert (Hok : references_ok (store w)).
  { intros q [<- | [<- | []]]; reflexivity. }
  exact (proj1 (guest_roster_after_host_left
                  (Scenario.served "" 500) (Scenario.served "" 501) (Scenario.served "" 510)
                  w Scenario.alice Scenario.the_room
                  (Scenario.in_room_as Scenario.the_room Scenario.bob
                     [Scenario.alice; Scenario.bob])
                  eq_refl eq_refl eq_refl eq_refl Hok eq_refl eq_refl)).
Defined.

(** * The handlers at their awaits *)

(** ** Agreement with the handlers run in one piece *)

Section Agreement.

Lemma hostRoom_complete (random : list nat) (c_room c_player : Call) (w : World) :
  Async.complete [c_room; c_player] (snd (Async.hostRoom random (ui w)))
    (run (fst (Async.hostRoom random (ui w))) w)
  = run (hostRoom random c_room c_player) w.
Proof.
  unfold Async.hostRoom, hostRoom, Async.failed, Async.with_store. act_unfold.
  destruct (JS.truthy (JS.trim (playerName (ui w)))); simpl; [|reflexivity].
  destruct (insert_room c_room (generateRoomCode random) (playerName (ui w)) (Some 5%Z)
              (store w)) as [[roomData | e] db1]; simpl; [|reflexivity].
  destruct (insert_player c_player (Room.id roomData) (playerName (ui w)) (Some true) db1)
    as [[playerData | e] db2]; reflexivity.
Qed.

Lemma joinRoom_complete (c_room c_count c_player : Call) (w : World) :
  Async.complete [c_room; c_count; c_player] (snd (Async.joinRoom (ui w)))
    (run (fst (Async.joinRoom (ui w))) w)
  = run (joinRoom c_room c_count c_player) w.
Proof.
  unfold Async.joinRoom, joinRoom, Async.failed, Async.with_store. act_unfold.
  destruct (JS.truthy (JS.trim (playerName (ui w)))); simpl; [|reflexivity].
  destruct (JS.truthy (JS.trim (roomCode (ui w)))); simpl; [|reflexivity].
  destruct (select_room_by_code c_room (JS.toUpperCase (roomCode (ui w))) (store w))
    as [[roomData | e] db1]; simpl; [|reflexivity].
  destruct (select_players c_count (Room.id roomData) db1)
    as [[existing | e] db2]; simpl; [|reflexivity].
  destruct (Room.max_players roomData <=? Z.of_nat (length existing))%Z;
    simpl; [reflexivity|].
  destruct (insert_player c_player (Room.id roomData) (playerName (ui w)) (Some false) db2)
    as [[playerData | e] db3]; reflexivity.
Qed.

Lemma leaveRoom_complete (c_player c_room : Call) (w : World) :
  Async.complete [c_player; c_room] (snd (Async.leaveRoom (ui w)))
    (run (fst (Async.leaveRoom (ui w))) w)
  = run (leaveRoom c_player c_room) w.
Proof.
  unfold Async.leaveRoom, leaveRoom, Async.left, Async.with_store. act_unfold.
  destruct (currentPlayer (ui w)) as [p|]; [|destruct w; reflexivity].
  destruct (currentRoom (ui w)) as [r|]; [|destruct w; reflexivity].
  act_unfold.
  destruct (delete_player c_player (Player.id p) (store w)) as [res1 db1]. simpl.
  destruct (Player.is_host p); simpl; [|reflexivity].
  destruct (delete_room c_room (Room.id r) db1) as [res2 db2]. reflexivity.
Qed.

Lemma fetchPlayers_complete (c : Call) (w : World) :
  Async.complete [c] (snd (Async.fetchPlayers (ui w)))
    (run (fst (Async.fetchPlayers (ui w))) w)
  = run (fetchPlayers c) w.
Proof.
  unfold Async.fetchPlayers, fetchPlayers, Async.with_store. act_unfold.
  destruct (currentRoom (ui w)) as [r|]; [|destruct w; reflexivity].
  act_unfold.
  destruct (select_players_ordered c (Room.id r) (store w)) as [[data | e] db1];
    reflexivity.
Qed.

End Agreement.

(** ** What holds under every interleaving *)

Section Interleaving.

Lemma settled_same (st st' : Lobby) :
  currentView st' = currentView st ->
  currentRoom st' = currentRoom st ->
  currentPlayer st' = currentPlayer st ->
  players st' = players st ->
  settled st -> settled st'.
Proof.
  unfold settled, coherent. intros -> -> -> ->. auto.
Qed.

Lemma settled_entered (r : Room.t) (p : Player.t) (st : Lobby) :
  Player.room_id p = Room.id r ->
  ascending_by_joined_at (players st) ->
  settled (entered r p st).
Proof.
  intros Hp Hs. split; [|exact Hs]. unfold coherent. simpl. exists r, p. auto.
Qed.

Lemma settled_left_room (st : Lobby) : settled (left_room st).
Proof. split; [split; reflexivity | constructor]. Qed.

Lemma insert_player_room_id (c : Call) (rid name : string) (h : option bool) (db : Store)
    (p : Player.t) :
  fst (insert_player c rid name h db) = Data p -> Player.room_id p = rid.
Proof.
  destruct (insert_player c rid name h db) as [res db'] eqn:Hins. simpl. intros ->.
  apply insert_player_Data in Hins as (-> & _). reflexivity.
Qed.

Lemma select_players_ordered_ascending (c : Call) (rid : string) (db : Store)
    (data : list Player.t) :
  fst (select_players_ordered c rid db) = Data data -> ascending_by_joined_at data.
Proof.
  unfold select_players_ordered. destruct (negb (transport_ok c)); simpl; [discriminate|].
  intros H; injection H as <-. apply order_by_joined_at_sorted.
Qed.

Ltac same := intros w Hw; apply (settled_same (ui w)); auto.

Lemma hostRoom_keeps_settled (random : list nat) (st : Lobby) :
  (forall w, settled (ui w) -> settled (ui (run (fst (Async.hostRoom random st)) w))) /\
  Async.keeps_ui settled (snd (Async.hostRoom random st)).
Proof.
  unfold Async.hostRoom.
  destruct (JS.truthy (JS.trim (playerName st))); simpl; [|split; [same | exact I]].
  split; [same|]. intros c db. split.
  - destruct (fst (insert_room c (generateRoomCode random) (playerName st) (Some 5%Z) db));
      same.
  - destruct (fst (insert_room c (generateRoomCode random) (playerName st) (Some 5%Z) db))
      as [roomData | e]; simpl; [|exact I].
    intros c' db'. split; [|exact I].
    destruct (fst (insert_player c' (Room.id roomData) (playerName st) (Some true) db'))
      as [playerData | e] eqn:Hins; [|same].
    intros w [_ Hs].
    apply (settled_entered roomData playerData (ui w)
             (insert_player_room_id _ _ _ _ _ _ Hins) Hs).
Qed.

Lemma joinRoom_keeps_settled (st : Lobby) :
  (forall w, settled (ui w) -> settled (ui (run (fst (Async.joinRoom st)) w))) /\
  Async.keeps_ui settled (snd (Async.joinRoom st)).
Proof.
  unfold Async.joinRoom.
  destruct (JS.truthy (JS.trim (playerName st))); simpl; [|split; [same | exact I]].
  destruct (JS.truthy (JS.trim (roomCode st))); simpl; [|split; [same | exact I]].
  split; [same|]. intros c db. split.
  - destruct (fst (select_room_by_code c (JS.toUpperCase (roomCode st)) db)); same.
  - destruct (fst (select_room_by_code c (JS.toUpperCase (roomCode st)) db))
      as [roomData | e]; simpl; [|exact I].
    intros c1 db1. split.
    + destruct (fst (select_players c1 (Room.id roomData) db1)) as [existing | e]; [|same].
      destruct (Room.max_players roomData <=? Z.of_nat (length existing))%Z; same.
    + destruct (fst (select_players c1 (Room.id roomData) db1)) as [existing | e];
        simpl; [|exact I].
      destruct (Room.max_players roomData <=? Z.of_nat (length existing))%Z;
        simpl; [exact I|].
      intros c2 db2. split; [|exact I].
      destruct (fst (insert_player c2 (Room.id roomData) (playerName st) (Some false) db2))
        as [playerData | e] eqn:Hins; [|same].
      intros w [_ Hs].
      apply (settled_entered roomData playerData (ui w)
               (insert_player_room_id _ _ _ _ _ _ Hins) Hs).
Qed.

Lemma left_keeps_settled (w : World) : settled (ui (run Async.left w)).
Proof. apply (settled_left_room (ui w)). Qed.

Lemma leaveRoom_keeps_settled (st : Lobby) :
  (forall w, settled (ui w) -> settled (ui (run (fst (Async.leaveRoom st)) w))) /\
  Async.keeps_ui settled (snd (Async.leaveRoom st)).
Proof.
  unfold Async.leaveRoom.
  destruct (currentPlayer st) as [p|]; [|split; [same | exact I]].
  destruct (currentRoom st) as [r|]; [|split; [same | exact I]].
  split; [same|]. simpl. intros c db.
  destruct (Player.is_host p); simpl.
  - split; [same|]. intros c' db'. split; [|exact I].
    intros w _. apply left_keeps_settled.
  - split; [|exact I]. intros w _. apply left_keeps_settled.
Qed.

Lemma fetchPlayers_keeps_settled (st : Lobby) :
  (forall w, settled (ui w) -> settled (ui (run (fst (Async.fetchPlayers st)) w))) /\
  Async.keeps_ui settled (snd (Async.fetchPlayers st)).
Proof.
  unfold Async.fetchPlayers.
  destruct (currentRoom st) as [r|]; [|split; [same | exact I]].
  split; [same|]. simpl. intros c db. split; [|exact I].
  destruct (fst (select_players_ordered c (Room.id r) db)) as [data | e] eqn:Hsel; [|same].
  intros w [Hc _]. split; [exact Hc|]. simpl.
  apply (select_players_ordered_ascending _ _ _ _ Hsel).
Qed.

Lemma handler_keeps_settled (t : Async.Trigger) (st : Lobby) :
  (forall w, settled (ui w) -> settled (ui (run (fst (Async.handler t st)) w))) /\
  Async.keeps_ui settled (snd (Async.handler t st)).
Proof.
  destruct t; simpl.
  - split; [same | exact I].
  - split; [same | exact I].
  - apply hostRoom_keeps_settled.
  - apply joinRoom_keeps_settled.
  - apply leaveRoom_keeps_settled.
  - split; [|exact I]. intros w Hw. rewrite startGame_ui. exact Hw.
  - apply fetchPlayers_keeps_settled.
  - split; [|exact I]. intros w _. apply (settled_left_room (ui w)).
Qed.

Lemma Forall_replace_nth {A : Type} (P : A -> Prop) (i : nat) (x : A) (l : list A) :
  P x -> Forall P l -> Forall P (Async.replace_nth i x l).
Proof.
  intros Hx Hl. revert i. induction Hl as [|a l Ha Hl IH]; intros [|i]; simpl;
    constructor; auto.
Qed.

Lemma Forall_remove_nth {A : Type} (P : A -> Prop) (i : nat) (l : list A) :
  Forall P l -> Forall P (Async.remove_nth i l).
Proof.
  intros Hl. revert i. induction Hl as [|a l Ha Hl IH]; intros [|i]; simpl;
    try constructor; auto.
Qed.

Lemma Forall_nth_error {A : Type} (P : A -> Prop) (i : nat) (x : A) (l : list A) :
  Forall P l -> nth_error l i = Some x -> P x.
Proof.
  intros Hl Hx. rewrite Forall_forall in Hl. apply Hl. apply (nth_error_In _ _ Hx).
Qed.

Lemma step_calm (e : Async.Event) (a : Async.State) : calm a -> calm (Async.step e a).
Proof.
  intros [Hui Htasks]. destruct e; simpl.
  - destruct (handler_keeps_settled t (ui (Async.current a))) as [Hblock Hrun].
    destruct (Async.handler t (ui (Async.current a))) as [block r]. simpl in *.
    split; simpl; [apply Hblock, Hui|].
    apply Forall_app. split; [exact Htasks|].
    destruct r.
    + apply Forall_nil.
    + apply Forall_cons; [exact Hrun | apply Forall_nil].
  - destruct (nth_error (Async.pending a) i) as [[[|A call block next] | block next]|]
      eqn:Hnth; try (split; assumption).
    pose proof (Forall_nth_error _ _ _ _ Htasks Hnth) as Hrun. simpl in Hrun.
    specialize (Hrun c (store (Async.current a))).
    destruct (call c (store (Async.current a))) as [res db]. simpl in *.
    split; simpl; [exact Hui|].
    apply Forall_replace_nth; [exact Hrun | exact Htasks].
  - destruct (nth_error (Async.pending a) i) as [[r | block next]|] eqn:Hnth;
      try (split; assumption).
    pose proof (Forall_nth_error _ _ _ _ Htasks Hnth) as [Hblock Hnext]. simpl.
    split; simpl; [apply Hblock, Hui|].
    destruct next; [apply Forall_remove_nth, Htasks|].
    apply Forall_replace_nth; [exact Hnext | exact Htasks].
  - split; assumption.
Qed.

End Interleaving.

Lemma steps_calm (es : list Async.Event) (a : Async.State) :
  calm a -> calm (Async.steps es a).
Proof.
  revert a; induction es as [|e es IH]; intros a Ha; simpl; [exact Ha|].
  apply IH, step_calm, Ha.
Qed.

(** X15.  Under every interleaving the view, the room and the player fit
    together and the roster is in join order.  Let handlers start at any
    time, each store call be answered at any later time and each response
    arrive at any later time still, with writes of other clients in between:
    whenever no statement runs, the client is at the landing screen holding
    no room and no player, or in the room view holding a room and a player
    whose [room_id] is the id of that room; and the roster is non-decreasing
    by join time.  (That the roster is made of rows of the held room, or
    empty at the landing screen, is not kept: see the next property.) *)
Theorem async_lobby_settled (es : list Async.Event) (db : Store) :
  let st := ui (Async.current (Async.steps es (Async.idle (world db initialLobby)))) in
  coherent st /\ ascending_by_joined_at (players st).
Proof.
  intros st.
  assert (H : calm (Async.steps es (Async.idle (world db initialLobby)))).
  { apply steps_calm. split; [split; [split; reflexivity | constructor] | constructor]. }
  exact (proj1 H).
Qed.

(** X14.  [fetchPlayers] looks at [currentRoom] before its [await] only, and
    sets the roster when the response arrives, whatever the state then is.
    Take a client in a room whose refresh has been answered by the store
    when another client writes (the host deleting the room, say) and the
    room-deleted event comes.  With the response delivered before the event,
    the client ends at Landing with an empty roster.  With the event first,
    the response that follows puts the rows the store returned, those of the
    room that is closed, back into the roster of a client that now holds no
    room and no player: the two orders end alike only when the store had no
    row to return. *)
Theorem late_response_refills_roster
    (c : Call) (write : Store -> Store) (w : World) (r : Room.t) :
  currentRoom (ui w) = Some r ->
  transport_ok c = true ->
  let data := order_by_joined_at
                (filter (in_room (Room.id r)) (public_players (store w))) in
  let answered := [Async.Start Async.PlayersChanged; Async.Answer 0 c] in
  let closed := [Async.Elsewhere write; Async.Start Async.RoomDeleted] in
  let early := Async.steps (answered ++ [Async.Deliver 0] ++ closed) (Async.idle w) in
  let late := Async.steps (answered ++ closed ++ [Async.Deliver 0]) (Async.idle w) in
  ui (Async.current early) = left_room (ui w) /\
  ui (Async.current late) = with_players data (left_room (ui w)) /\
  Async.pending early = [] /\
  Async.pending late = [] /\
  store (Async.current late) = write (store w) /\
  (Landing (ui (Async.current late)) <-> data = []).
Proof.
  intros Hr Hc data answered closed early late.
  assert (Hearly : early = {| Async.current :=
                                {| store := write (store w); ui := left_room (ui w);
                                   out := out w ++ [Toast "Room closed"
                                            "The host has closed the room." default] |};
                              Async.pending := [] |}).
  { subst early answered closed. unfold Async.steps, Async.idle. simpl.
    unfold Async.fetchPlayers. rewrite Hr. simpl.
    unfold select_players_ordered. rewrite Hc. simpl.
    unfold onRoomDeleted. act_unfold. reflexivity. }
  assert (Hlate : late = {| Async.current :=
                              {| store := write (store w);
                                 ui := with_players data (left_room (ui w));
                                 out := out w ++ [Toast "Room closed"
                                          "The host has closed the room." default] |};
                            Async.pending := [] |}).
  { subst late answered closed. unfold Async.steps, Async.idle. simpl.
    unfold Async.fetchPlayers. rewrite Hr. simpl.
    unfold select_players_ordered. rewrite Hc. simpl.
    unfold onRoomDeleted. act_unfold. reflexivity. }
  rewrite Hearly, Hlate. simpl.
  repeat split; try reflexivity.
  - intros (_ & _ & _ & H). exact H.
  - assumption.
Qed.

Lemma late_response_refills_roster_witness :
  let w := world Scenario.joined
             (Scenario.in_room_as Scenario.the_room Scenario.bob
                [Scenario.alice; Scenario.bob]) in
  let host_closes db := snd (delete_room (Scenario.served "" 501) "r-1" db) in
  let late := Async.steps [Async.Start Async.PlayersChanged;
                           Async.Answer 0 (Scenario.served "" 600);
                           Async.Elsewhere host_closes;
                           Async.Start Async.RoomDeleted;
                           Async.Deliver 0] (Async.idle w) in
  ui (Async.current late)
  = with_players [Scenario.alice; Scenario.bob] (left_room (ui w)) /\
  store (Async.current late) = emptyStore.
Proof.
  intros w host_closes late.
  pose proof (late_response_refills_roster (Scenario.served "" 600) host_closes w
                Scenario.the_room eq_refl eq_refl) as (_ & Hui & _ & _ & Hstore & _).
  exact (conj Hui Hstore).
Defined.

Lemma steps_cons (e : Async.Event) (es : list Async.Event) (a : Async.State) :
  Async.steps (e :: es) a = Async.steps es (Async.step e a).
Proof. reflexivity. Qed.

Lemma run_left (w : World) :
  run Async.left w
  = {| store := store w; ui := left_room (ui w);
       out := out w ++ [Toast "Left room" "You have left the room." default] |}.
Proof. unfold Async.left. act_unfold. reflexivity. Qed.

Ltac async_step :=
  rewrite steps_cons;
  cbn [Async.step nth_error Async.pending Async.current store Async.with_store
       Async.replace_nth Async.remove_nth];
  rewrite ?run_left;
  cbn [run snd pure store ui out].

(** X20.  The leave button is not disabled while [leaveRoom] awaits its
    deletes, and a second click runs the handler again on the same player
    and room: after the first click the screen still allows the second,
    both runs wait for the delete of the same player row, and when both have
    run to their end the deletes have been sent twice and the Left room
    toast has been shown twice, the client being at Landing. *)
Theorem leaveRoom_clicked_twice
    (c1 c1' c2 c2' : Call) (w : World) (p : Player.t) (r : Room.t) :
  currentView (ui w) = room ->
  currentPlayer (ui w) = Some p ->
  currentRoom (ui w) = Some r ->
  let once c c' db :=
    let db1 := snd (delete_player c (Player.id p) db) in
    if Player.is_host p then snd (delete_room c' (Room.id r) db1) else db1 in
  let to_the_end c c' :=
    if Player.is_host p
    then [Async.Answer 0 c; Async.Deliver 0; Async.Answer 0 c'; Async.Deliver 0]
    else [Async.Answer 0 c; Async.Deliver 0] in
  let clicked := Async.step (Async.Start Async.ClickLeave) (Async.idle w) in
  let twice := Async.step (Async.Start Async.ClickLeave) clicked in
  let ended := Async.steps (to_the_end c1 c1' ++ to_the_end c2 c2') twice in
  Async.current clicked = w /\
  enabled (ui (Async.current clicked)) (ClickLeave c2 c2') = true /\
  Async.pending twice
    = [Async.Waiting (snd (Async.leaveRoom (ui w)));
       Async.Waiting (snd (Async.leaveRoom (ui w)))] /\
  Async.pending ended = [] /\
  store (Async.current ended) = once c2 c2' (once c1 c1' (store w)) /\
  ui (Async.current ended) = left_room (ui w) /\
  out (Async.current ended)
    = out w ++ [Toast "Left room" "You have left the room." default;
                Toast "Left room" "You have left the room." default].
Proof.
  intros Hview Hp Hr once to_the_end clicked twice ended.
  subst ended twice clicked to_the_end once.
  destruct w as [db st o]; destruct st; simpl in Hview, Hp, Hr; subst.
  unfold Async.idle, enabled.
  cbn [Async.step Async.handler Async.leaveRoom ui currentPlayer currentRoom currentView
       Async.current Async.pending app run snd pure store].
  split; [reflexivity|]. split; [reflexivity|]. split; [reflexivity|].
  destruct (Player.is_host p); cbn [app].
  - async_step. destruct (delete_player c1 (Player.id p) db) as [res1 db1].
    async_step. async_step.
    destruct (delete_room c1' (Room.id r) db1) as [res1' db1'].
    async_step. async_step.
    destruct (delete_player c2 (Player.id p) db1') as [res2 db2].
    async_step. async_step.
    destruct (delete_room c2' (Room.id r) db2) as [res2' db2'].
    async_step.
    simpl. repeat split. rewrite <- app_assoc. reflexivity.
  - async_step. destruct (delete_player c1 (Player.id p) db) as [res1 db1].
    async_step. async_step.
    destruct (delete_player c2 (Player.id p) db1) as [res2 db2].
    async_step.
    simpl. repeat split. rewrite <- app_assoc. reflexivity.
Qed.

Lemma leaveRoom_clicked_twice_witness :
  let w := world Scenario.joined
             (Scenario.in_room_as Scenario.the_room Scenario.bob
                [Scenario.alice; Scenario.bob]) in
  let ended := Async.steps [Async.Start Async.ClickLeave; Async.Start Async.ClickLeave;
                            Async.Answer 0 (Scenario.served "" 500); Async.Deliver 0;
                            Async.Answer 0 (Scenario.served "" 502); Async.Deliver 0]
                 (Async.idle w) in
  out (Async.current ended)
  = [Toast "Left room" "You have left the room." default;
     Toast "Left room" "You have left the room." default].
Proof.
  intros w ended.
  exact (proj2 (proj2 (proj2 (proj2 (proj2 (proj2
           (leaveRoom_clicked_twice
              (Scenario.served "" 500) (Scenario.served "" 501)
              (Scenario.served "" 502) (Scenario.served "" 503)
              w Scenario.bob Scenario.the_room eq_refl eq_refl eq_refl))))))).
Defined.
